(** * riboviz: configuration upgrade and the file-equivalence test policy

    A shallow embedding of [riboviz/upgrade_config.py] and of the checks of
    [riboviz/test/integration/test_integration.py] and
    [riboviz/test/regression/test_regression.py] that decide where the
    expected files live and whether a check is skipped, asserts existence
    only, or compares content. *)

From Stdlib Require Import ZArith String Ascii List Bool Lia.
From stdpp Require Import gmap strings list fin_maps pretty.

Open Scope string_scope.

(** ** Configuration values

    A configuration is what [yaml.load(f, yaml.SafeLoader)] returns for a
    mapping document: a Python [dict] from parameter names to scalars, lists
    or nested mappings. *)

#[warnings="-register-all"]
Inductive value : Type :=
  | VNone                                   (* Python None, YAML null *)
  | VBool (b : bool)
  | VInt (n : Z)
  | VStr (s : string)
  | VList (items : list value)
  | VDict (items : list (string * value)).

Abbreviation configuration := (gmap string value).

(** ** Parameter names ([riboviz.params]) *)

Module params.

(** Modelled from the spec: [riboviz/params.py] is not among the sources.
    The names below are the ones the module documentation of
    [upgrade_config.py] gives for each constant (the right-hand sides of its
    rename list and the keys of its list of defaults); [FQ_FILES] and
    [NEXTFLOW_RESUME], which that documentation does not list, follow the
    same lower-case convention. *)
Definition ASITE_DISP_LENGTH_FILE := "asite_disp_length_file".
Definition BUFFER := "buffer".
Definition CODON_POSITIONS_FILE := "codon_positions_file".
Definition COUNT_READS := "count_reads".
Definition COUNT_THRESHOLD := "count_threshold".
Definition DEDUP_STATS := "dedup_stats".
Definition DEDUP_UMIS := "dedup_umis".
Definition EXTRACT_UMIS := "extract_umis".
Definition FEATURE := "feature".
Definition FEATURES_FILE := "features_file".
Definition FQ_FILES := "fq_files".
Definition GROUP_UMIS := "group_umis".
Definition IS_RIBOVIZ_GFF := "is_riboviz_gff".
Definition JOB_EMAIL := "job_email".
Definition JOB_EMAIL_EVENTS := "job_email_events".
Definition JOB_MEMORY := "job_memory".
Definition JOB_NAME := "job_name".
Definition JOB_NUM_CPUS := "job_num_cpus".
Definition JOB_PARALLEL_ENV := "job_parallel_env".
Definition JOB_RUNTIME := "job_runtime".
Definition MAX_READ_LENGTH := "max_read_length".
Definition MIN_READ_LENGTH := "min_read_length".
Definition MULTIPLEX_FQ_FILES := "multiplex_fq_files".
Definition NEXTFLOW_DAG_FILE := "nextflow_dag_file".
Definition NEXTFLOW_REPORT_FILE := "nextflow_report_file".
Definition NEXTFLOW_RESUME := "nextflow_resume".
Definition NEXTFLOW_TIMELINE_FILE := "nextflow_timeline_file".
Definition NEXTFLOW_TRACE_FILE := "nextflow_trace_file".
Definition NEXTFLOW_WORK_DIR := "nextflow_work_dir".
Definition NUM_PROCESSES := "num_processes".
Definition ORF_FASTA_FILE := "orf_fasta_file".
Definition ORF_INDEX_PREFIX := "orf_index_prefix".
Definition OUTPUT_METAGENE_NORMALIZED_PROFILE :=
  "output_metagene_normalized_profile".
Definition OUTPUT_PDFS := "output_pdfs".
Definition PRIMARY_ID := "primary_id".
Definition PUBLISH_INDEX_TMP := "publish_index_tmp".
Definition RRNA_FASTA_FILE := "rrna_fasta_file".
Definition RRNA_INDEX_PREFIX := "rrna_index_prefix".
Definition RUN_STATIC_HTML := "run_static_html".
Definition SAMPLE_SHEET := "sample_sheet".
Definition SAMSORT_MEMORY := "samsort_memory".
Definition SECONDARY_ID := "secondary_id".
Definition STOP_IN_FEATURE := "stop_in_feature".
Definition TRIM_5P_MISMATCHES := "trim_5p_mismatches".
Definition T_RNA_FILE := "t_rna_file".
Definition UMI_REGEXP := "umi_regexp".
Definition VALIDATE_ONLY := "validate_only".

(** Modelled from the spec: [params.DEFAULT_JOB_CONFIG] is declared in the
    missing [riboviz/params.py]. Its entries are the defaults that the
    module documentation of [upgrade_config.py] lists and that [UPDATES]
    does not hold, together with the resume parameter that
    [upgrade_config] deletes from its copy (a command-line only flag,
    [False] when not given). *)
Definition DEFAULT_JOB_CONFIG : list (string * value) :=
  [ (JOB_EMAIL, VNone);
    (JOB_EMAIL_EVENTS, VStr "beas");
    (JOB_MEMORY, VStr "8G");
    (JOB_NAME, VStr "riboviz");
    (JOB_NUM_CPUS, VInt 4);
    (JOB_PARALLEL_ENV, VStr "mpi");
    (JOB_RUNTIME, VStr "48:00:00");
    (NEXTFLOW_DAG_FILE, VStr "nextflow-dag.html");
    (NEXTFLOW_REPORT_FILE, VStr "nextflow-report.html");
    (NEXTFLOW_RESUME, VBool false);
    (NEXTFLOW_TIMELINE_FILE, VStr "nextflow-timeline.html");
    (NEXTFLOW_TRACE_FILE, VStr "nextflow-trace.tsv");
    (NEXTFLOW_WORK_DIR, VStr "work");
    (VALIDATE_ONLY, VBool false) ].

End params.

(** ** POSIX path functions ([posixpath], as [os.path] on the platforms
    riboviz runs on) *)

Definition sep : ascii := "/"%char.

Definition is_sep (a : ascii) : bool := Ascii.eqb a sep.

(** [p.rfind('/')], with [None] for Python's [-1]. *)
Fixpoint rfind_sep (p : string) : option nat :=
  match p with
  | EmptyString => None
  | String a rest =>
      match rfind_sep rest with
      | Some i => Some (S i)
      | None => if is_sep a then Some 0 else None
      end
  end.

(** The slices [p[:i]] and [p[i:]]. *)
Fixpoint slice_to (i : nat) (p : string) : string :=
  match i, p with
  | S j, String a rest => String a (slice_to j rest)
  | _, _ => EmptyString
  end.

Fixpoint slice_from (i : nat) (p : string) : string :=
  match i, p with
  | S j, String _ rest => slice_from j rest
  | _, _ => p
  end.

Fixpoint all_sep (p : string) : bool :=
  match p with
  | EmptyString => true
  | String a rest => is_sep a && all_sep rest
  end.

(** [head.rstrip('/')]. *)
Fixpoint rstrip_sep (p : string) : string :=
  match p with
  | EmptyString => EmptyString
  | String a rest =>
      match rstrip_sep rest with
      | EmptyString => if is_sep a then EmptyString else String a EmptyString
      | r => String a r
      end
  end.

(** [os.path.split]: [i = p.rfind(sep) + 1], [head, tail = p[:i], p[i:]],
    and [head] loses its trailing separators unless it consists of
    separators only. *)
Definition split_index (p : string) : nat :=
  match rfind_sep p with
  | Some i => S i
  | None => 0
  end.

Definition path_split (p : string) : string * string :=
  let i := split_index p in
  let head := slice_to i p in
  let tail := slice_from i p in
  (if negb (String.eqb head "") && negb (all_sep head)
   then rstrip_sep head else head, tail).

(** [os.path.basename]: [p[p.rfind(sep) + 1:]]. *)
Definition basename (p : string) : string := slice_from (split_index p) p.

(** [p.split('/')]: the pieces between separators, never an empty list. *)
Fixpoint split_sep (p : string) : list string :=
  match p with
  | EmptyString => [EmptyString]
  | String a rest =>
      if is_sep a then EmptyString :: split_sep rest
      else match split_sep rest with
           | comp :: comps => String a comp :: comps
           | [] => [String a EmptyString]
           end
  end.

(** [sep * n]. *)
Fixpoint seps (n : nat) : string :=
  match n with
  | O => EmptyString
  | S m => String sep (seps m)
  end.

Definition is_nil {A} (l : list A) : bool :=
  match l with [] => true | _ => false end.

(** The body of the loop of [os.path.normpath] over the components:
    empty and [.] components are dropped, [..] removes the component before
    it where there is one to remove. *)
Definition normpath_step (initial_slashes : nat) (new_comps : list string)
    (comp : string) : list string :=
  if String.eqb comp "" || String.eqb comp "." then new_comps
  else if negb (String.eqb comp "..")
          || (Nat.eqb initial_slashes 0 && is_nil new_comps)
          || (negb (is_nil new_comps)
              && String.eqb (List.last new_comps "") "..")
       then (new_comps ++ [comp])%list
  else if negb (is_nil new_comps) then removelast new_comps
  else new_comps.

(** [os.path.normpath]. POSIX keeps exactly two leading slashes and turns
    three or more into one. *)
Definition normpath (path : string) : string :=
  if String.eqb path "" then "."
  else
    let initial_slashes :=
      if String.prefix "/" path
      then if String.prefix "//" path && negb (String.prefix "///" path)
           then 2 else 1
      else 0 in
    let comps := split_sep path in
    let new_comps := foldl (normpath_step initial_slashes) [] comps in
    let path := String.concat "/" new_comps in
    let path :=
      if Nat.eqb initial_slashes 0 then path
      else seps initial_slashes ++ path in
    if String.eqb path "" then "." else path.

(** [path.endswith(sep)]. *)
Fixpoint ends_with_sep (p : string) : bool :=
  match p with
  | EmptyString => false
  | String a EmptyString => is_sep a
  | String _ rest => ends_with_sep rest
  end.

(** One iteration of the loop of [os.path.join]: an absolute component
    restarts the path, otherwise it is appended after a separator unless the
    path is empty or already ends with one. *)
Definition join_step (path b : string) : string :=
  if String.prefix "/" b then b
  else if String.eqb path "" || ends_with_sep path then path ++ b
  else path ++ "/" ++ b.

(** [os.path.join(a, *p)]. *)
Definition path_join (a : string) (p : list string) : string :=
  foldl join_step a p.

(** ** The tables of [upgrade_config.py] *)

(** [RENAMES], in the order of the dictionary display (which is the order
    [RENAMES.items()] iterates in). *)
Definition RENAMES : list (string * string) :=
  [ ("Buffer", params.BUFFER);
    ("MaxReadLen", params.MAX_READ_LENGTH);
    ("MinReadLen", params.MIN_READ_LENGTH);
    ("PrimaryID", params.PRIMARY_ID);
    ("SecondID", params.SECONDARY_ID);
    ("StopInCDS", params.STOP_IN_FEATURE);
    ("codon_pos", params.CODON_POSITIONS_FILE);
    ("nprocesses", params.NUM_PROCESSES);
    ("orf_fasta", params.ORF_FASTA_FILE);
    ("orf_index", params.ORF_INDEX_PREFIX);
    ("rRNA_fasta", params.RRNA_FASTA_FILE);
    ("rRNA_index", params.RRNA_INDEX_PREFIX);
    ("ribovizGFF", params.IS_RIBOVIZ_GFF);
    ("stop_in_cds", params.STOP_IN_FEATURE);
    ("t_rna", params.T_RNA_FILE);
    ("do_pos_sp_nt_freq", params.OUTPUT_METAGENE_NORMALIZED_PROFILE) ].

Definition UPDATES : list (string * value) :=
  [ (params.ASITE_DISP_LENGTH_FILE, VNone);
    (params.OUTPUT_METAGENE_NORMALIZED_PROFILE, VBool true);
    (params.CODON_POSITIONS_FILE, VNone);
    (params.COUNT_READS, VBool true);
    (params.COUNT_THRESHOLD, VInt 64);
    (params.DEDUP_STATS, VBool false);
    (params.DEDUP_UMIS, VBool false);
    (params.EXTRACT_UMIS, VBool false);
    (params.FEATURE, VStr "CDS");
    (params.FEATURES_FILE, VNone);
    (params.FQ_FILES, VNone);
    (params.GROUP_UMIS, VBool false);
    (params.MULTIPLEX_FQ_FILES, VNone);
    (params.OUTPUT_PDFS, VBool true);
    (params.PUBLISH_INDEX_TMP, VBool false);
    (params.RUN_STATIC_HTML, VBool true);
    (params.SAMPLE_SHEET, VNone);
    (params.SAMSORT_MEMORY, VNone);
    (params.STOP_IN_FEATURE, VBool false);
    (params.TRIM_5P_MISMATCHES, VBool true);
    (params.T_RNA_FILE, VNone);
    (params.UMI_REGEXP, VNone) ].

Definition UNUSED : list string :=
  [ "aligner"; "isTestRun"; "is_test_run"; "cmd_file"; "dir_logs" ].

(** ** [upgrade_config]

    The function mutates the dictionary it is given and returns nothing, so
    the model is a state transformer: it returns the dictionary as the call
    leaves it, and the exception that ended the call if one was raised. *)

Inductive exn : Type :=
  | KeyError (key : string)     (* [config[key]] on an absent key *)
  | TypeError (v : value).      (* [os.path.split] on a value that is no path *)

(** One iteration of the rename loop. *)
Definition rename_step (config : configuration) (entry : string * string) : configuration :=
  let '(old_key, new_key) := entry in
  match config !! old_key with
  | Some value => <[new_key := value]> (delete old_key config)
  | None => config
  end.

Definition rename_pass (config : configuration) : configuration :=
  foldl rename_step config RENAMES.

(** One iteration of either default loop. *)
Definition default_step (config : configuration) (entry : string * value) : configuration :=
  let '(key, value) := entry in
  match config !! key with
  | None => <[key := value]> config
  | Some _ => config
  end.

(** [job_config = params.DEFAULT_JOB_CONFIG.copy()] followed by
    [del job_config[params.NEXTFLOW_RESUME]]. *)
Definition job_config : list (string * value) :=
  filter (fun entry => entry.1 ≠ params.NEXTFLOW_RESUME)
         params.DEFAULT_JOB_CONFIG.

Definition default_pass (config : configuration) : configuration :=
  foldl default_step (foldl default_step config UPDATES) job_config.

(** The loop over the two index-prefix keys. [config[key]] raises
    [KeyError] on an absent key and [os.path.split] raises [TypeError] on a
    value that is not a string; the loop stops there, with the keys before
    it already rewritten. *)
Fixpoint index_prefix_loop (keys : list string) (config : configuration)
  : configuration * option exn :=
  match keys with
  | [] => (config, None)
  | key :: rest =>
      match config !! key with
      | None => (config, Some (KeyError key))
      | Some (VStr path) =>
          let prefix := (path_split path).2 in
          index_prefix_loop rest (<[key := VStr prefix]> config)
      | Some v => (config, Some (TypeError v))
      end
  end.

Definition index_prefix_pass (config : configuration) : configuration * option exn :=
  index_prefix_loop [params.RRNA_INDEX_PREFIX; params.ORF_INDEX_PREFIX] config.

(** One iteration of the removal loop. *)
Definition remove_step (config : configuration) (key : string) : configuration :=
  match config !! key with
  | Some _ => delete key config
  | None => config
  end.

Definition removal_pass (config : configuration) : configuration :=
  foldl remove_step config UNUSED.

Definition upgrade_config (config : configuration) : configuration * option exn :=
  let config := rename_pass config in
  let config := default_pass config in
  match index_prefix_pass config with
  | (config, None) => (removal_pass config, None)
  | (config, Some e) => (config, Some e)
  end.

(** ** [upgrade_config_file]

    The file system, the YAML parser and the YAML printer are outside the
    program: [fs_exists] and [fs_isfile] answer [os.path.exists] and
    [os.path.isfile], [fs_load] is [yaml.load] of the file's text, [None]
    when the file cannot be read or the document is not a mapping that the
    loader accepts (on a document that is no mapping [upgrade_config]
    raises), and
    [fs_open_w] says whether [open(path, 'w')] succeeds ([open] raises
    [OSError] when the directory of the path is missing, when the path is a
    directory or when it may not be written, and then leaves the file system
    as it was). The result lists what the call did to the outside, in order,
    and how it ended. *)

Record filesystem : Type := {
  fs_exists : string -> bool;
  fs_isfile : string -> bool;
  fs_load : string -> option configuration;
  fs_open_w : string -> bool
}.

Inductive effect : Type :=
  | ReadFile (path : string)
  | WriteFile (path : string) (dumped : configuration)
  | PrintConfig (dumped : configuration).

Inductive ending : Type :=
  | Returned
  | AssertionError (message : string)
  | LoadError
  | UpgradeError (e : exn)
  | OSError (path : string).

Definition upgrade_config_file (fs : filesystem) (input_file : string)
    (output_file : option string) : list effect * ending :=
  if fs_exists fs input_file && fs_isfile fs input_file then
    match fs_load fs input_file with
    | None => ([ReadFile input_file], LoadError)
    | Some config =>
        match upgrade_config config with
        | (_, Some e) => ([ReadFile input_file], UpgradeError e)
        | (config, None) =>
            match output_file with
            | Some output_file =>
                if fs_open_w fs output_file then
                  ([ReadFile input_file; WriteFile output_file config],
                   Returned)
                else ([ReadFile input_file], OSError output_file)
            | None => ([ReadFile input_file; PrintConfig config], Returned)
            end
        end
    end
  else ([], AssertionError (input_file ++ " does not exist or is not a file")).

(** ** The checks of the integration and regression suites

    A check is a pytest test function, run after the fixtures that its
    [usefixtures] marks name. What lies outside it is a
    [world]: which paths exist and what each comparator of riboviz says of
    two files ([None] when they are equivalent, the diagnostic of its
    [AssertionError] otherwise). A check ends by returning (the test
    passes), by a failed assertion (it fails) or by [pytest.skip]; on the
    way it looks at paths and calls comparators, which the trace records. *)

Inductive comparator : Type :=
  | equal_file_sizes | equal_fastq | equal_sam | equal_bam | equal_tsv
  | equal_bedgraph | equal_h5 | equal_html | equal_read_counts
  | compare_files.

Record world : Type := {
  path_exists : string -> bool;
  differ : comparator -> string -> string -> option string
}.

Inductive event : Type :=
  | Exists (path : string)
  | Compared (cmp : comparator) (expected actual : string).

Inductive verdict : Type :=
  | Passed
  | Failed (message : string)
  | Skipped (reason : string).

Definition check (A : Type) : Type := world -> list event * (A + verdict).

#[global] Instance check_ret : MRet check := fun A a _ => ([], inl a).

#[global] Instance check_bind : MBind check := fun A B f m w =>
  match m w with
  | (t, inl a) => let '(t', r) := f a w in ((t ++ t')%list, r)
  | (t, inr v) => (t, inr v)
  end.

Definition pytest_skip (reason : string) : check unit :=
  fun _ => ([], inr (Skipped reason)).

Definition os_path_exists (path : string) : check bool :=
  fun w => ([Exists path], inl (path_exists w path)).

Definition py_assert (condition : bool) (message : string) : check unit :=
  fun _ => ([], if condition then inl tt else inr (Failed message)).

Definition call (cmp : comparator) (expected actual : string) : check unit :=
  fun w => ([Compared cmp expected actual],
            match differ w cmp expected actual with
            | None => inl tt
            | Some diagnostic => inr (Failed diagnostic)
            end).

Definition run (body : check unit) (w : world) : list event * verdict :=
  match body w with
  | (t, inl _) => (t, Passed)
  | (t, inr v) => (t, v)
  end.

(** The path resolver: every check that reads the expected side computes
    [os.path.basename(os.path.normpath(directory))] and joins it, with the
    rest of the file's path, under the [--expected] directory. *)
Definition expected_path (expected_fixture directory : string)
    (rest : list string) : string :=
  let dir_name := basename (normpath directory) in
  path_join expected_fixture (dir_name :: rest).

Definition was_compared (t : list event) : bool :=
  existsb (fun e => match e with Compared _ _ _ => true | _ => false end) t.

(** [if condition: statement]. *)
Definition when (condition : bool) (statement : check unit) : check unit :=
  if condition then statement else mret tt.

(** Modelled from the spec: [skip_index_tmp_fixture] is a fixture of the
    suites' [conftest.py], which is not among the sources. The usage text of
    both test modules says that the index and temporary files are checked
    only with [--check-index-tmp], so the fixture skips the check that
    carries its mark unless the option was given. The text of its reason is
    not in the sources and is a parameter. *)
Definition skip_index_tmp_fixture (check_index_tmp : bool)
    (reason : string) : check unit :=
  when (negb check_index_tmp) (pytest_skip reason).

(** *** [riboviz/test/integration/test_integration.py] *)

Module integration.
Section checks.

(** File-name constants and formats of [riboviz.hisat2],
    [riboviz.sam_bam] and [riboviz.workflow_files], none of which is among
    the sources; a format stands for its [.format(...)]. *)
Variable HT2_FORMAT : string -> nat -> string.
Variables BAM_FORMAT BAI_FORMAT DEDUP_STATS_FORMAT STATIC_HTML_FILE
  : string -> string.
Variables UMI_EXTRACT_FQ DEDUP_BAM PRE_DEDUP_GROUPS_TSV
  POST_DEDUP_GROUPS_TSV READ_COUNTS_PER_FILE_FILE : string.

(** [nextflow.run_nextflow], with the environment of the run: the exit code
    of the workflow on a configuration file. *)
Variable run_nextflow : string -> Z.

(** The fixture of the module that every check names in a [usefixtures]
    mark. When its assertion fails, pytest reports an error of each check
    that uses it, before the check has started; the model has one verdict
    for a failed assertion. *)
Definition prep_riboviz_fixture (skip_workflow_fixture : bool)
    (config_fixture : string) : check unit :=
  when (negb skip_workflow_fixture)
    (let exit_code := run_nextflow config_fixture in
     py_assert (exit_code =? 0)%Z
       ("prep_riboviz returned non-zero exit code " ++ pretty exit_code)).

Definition test_hisat2_build_index (build_indices : bool)
    (expected_fixture dir_index index_prefix : string) (index : nat)
  : check unit :=
  when (negb build_indices)
    (pytest_skip "Skipped test as build_indices: ") ;;
  let file_name := HT2_FORMAT index_prefix index in
  call equal_file_sizes
    (expected_path expected_fixture dir_index [file_name])
    (path_join dir_index [file_name]).

Definition test_umitools_extract_fq (extract_umis : bool)
    (expected_fixture dir_tmp sample : string) : check unit :=
  when (negb extract_umis)
    (pytest_skip "Skipped test applicable to UMI extraction") ;;
  call equal_fastq
    (expected_path expected_fixture dir_tmp [sample; UMI_EXTRACT_FQ])
    (path_join dir_tmp [sample; UMI_EXTRACT_FQ]).

Definition test_samtools_index_dedup_bam (dedup_umis : bool)
    (dir_tmp sample : string) : check unit :=
  when (negb dedup_umis)
    (pytest_skip "Skipped test applicable to UMI deduplication") ;;
  let actual_file := path_join dir_tmp [sample; DEDUP_BAM] in
  found ← os_path_exists actual_file;
  py_assert found ("Non-existent file: " ++ actual_file) ;;
  let actual_bai_file :=
    path_join dir_tmp [sample; BAI_FORMAT DEDUP_BAM] in
  found ← os_path_exists actual_bai_file;
  py_assert found ("Non-existent file: " ++ actual_bai_file).

Definition test_samtools_view_sort_index (dedup_umis : bool)
    (expected_fixture dir_out sample : string) : check unit :=
  let file_name := BAM_FORMAT sample in
  let bai_file_name := BAI_FORMAT file_name in
  let expected_file :=
    expected_path expected_fixture dir_out [sample; file_name] in
  found ← os_path_exists expected_file;
  when (negb found)
    (pytest_skip "Skipped as expected file does not exist") ;;
  let actual_file := path_join dir_out [sample; file_name] in
  found ← os_path_exists actual_file;
  py_assert found ("Non-existent file: " ++ actual_file) ;;
  let expected_bai_file :=
    expected_path expected_fixture dir_out [sample; bai_file_name] in
  let actual_bai_file := path_join dir_out [sample; bai_file_name] in
  found ← os_path_exists actual_bai_file;
  py_assert found ("Non-existent file: " ++ actual_bai_file) ;;
  if dedup_umis then mret tt
  else
    call equal_bam expected_file actual_file ;;
    call equal_file_sizes expected_bai_file actual_bai_file.

Definition test_umitools_dedup_stats_tsv (dedup_umis dedup_stats : bool)
    (expected_fixture dir_tmp sample stats_file : string) : check unit :=
  when (negb dedup_umis)
    (pytest_skip "Skipped test as dedup_umis: ") ;;
  when (negb dedup_stats)
    (pytest_skip "Skipped test as dedup_stats: ") ;;
  let file_name := path_join sample [DEDUP_STATS_FORMAT stats_file] in
  let expected_file := expected_path expected_fixture dir_tmp [file_name] in
  found ← os_path_exists expected_file;
  when (negb found)
    (pytest_skip "Skipped as expected file does not exist") ;;
  let actual_file := path_join dir_tmp [file_name] in
  found ← os_path_exists actual_file;
  py_assert found ("Non-existent file: " ++ actual_file).

Definition test_umitools_pre_dedup_group_tsv (dedup_umis group_umis : bool)
    (expected_fixture dir_tmp sample : string) : check unit :=
  when (negb dedup_umis)
    (pytest_skip "Skipped test as dedup_umis: ") ;;
  when (negb group_umis)
    (pytest_skip "Skipped test as group_umis: ") ;;
  call equal_tsv
    (expected_path expected_fixture dir_tmp [sample; PRE_DEDUP_GROUPS_TSV])
    (path_join dir_tmp [sample; PRE_DEDUP_GROUPS_TSV]).

Definition test_umitools_post_dedup_group_tsv (dedup_umis group_umis : bool)
    (dir_tmp sample : string) : check unit :=
  when (negb dedup_umis)
    (pytest_skip "Skipped test as dedup_umis: ") ;;
  when (negb group_umis)
    (pytest_skip "Skipped test as group_umis: ") ;;
  let actual_file := path_join dir_tmp [sample; POST_DEDUP_GROUPS_TSV] in
  found ← os_path_exists actual_file;
  py_assert found ("Non-existent file: " ++ actual_file).

Definition test_bedtools_bedgraph (expected_fixture : string)
    (make_bedgraph : bool) (dir_out sample file_name : string)
  : check unit :=
  when (negb make_bedgraph)
    (pytest_skip "Skipped test as make_bedgraph: ") ;;
  let expected_file :=
    expected_path expected_fixture dir_out [sample; file_name] in
  call equal_bedgraph expected_file
    (path_join dir_out [sample; file_name]).

Definition test_generate_stats_figs_pdf
    (expected_fixture dir_out sample file_name : string)
    (output_pdfs : bool) : check unit :=
  when (negb output_pdfs)
    (pytest_skip "Skipped testing for pdfs as pdfs not generated") ;;
  let expected_file :=
    expected_path expected_fixture dir_out [sample; file_name] in
  found ← os_path_exists expected_file;
  when (negb found)
    (pytest_skip "Skipped as expected file does not exist") ;;
  let actual_file := path_join dir_out [sample; file_name] in
  found ← os_path_exists actual_file;
  py_assert found ("Non-existent file: " ++ actual_file).

(** The [file_name] parameter is overwritten before it is read. *)
Definition test_analysis_outputs_html (run_static_html : bool)
    (expected_fixture dir_out sample file_name : string) : check unit :=
  when (negb run_static_html)
    (pytest_skip "Skipped test as run_static_html: ") ;;
  let file_name := STATIC_HTML_FILE sample in
  let expected_file :=
    expected_path expected_fixture dir_out [sample; file_name] in
  found ← os_path_exists (path_join dir_out [sample; file_name]);
  py_assert found "" ;;
  call equal_html expected_file (path_join dir_out [sample; file_name]).

Definition test_read_counts_per_file_tsv (count_reads : bool)
    (expected_fixture dir_out : string) : check unit :=
  when (negb count_reads)
    (pytest_skip "Skipped test as count_reads") ;;
  call equal_read_counts
    (expected_path expected_fixture dir_out [READ_COUNTS_PER_FILE_FILE])
    (path_join dir_out [READ_COUNTS_PER_FILE_FILE]).

End checks.
End integration.

(** *** [riboviz/test/regression/test_regression.py] *)

Module regression.
Section checks.

Variable HT2_FORMAT : string -> nat -> string.
Variables BAM_FORMAT BAI_FORMAT DEDUP_STATS_FORMAT : string -> string.
Variables UMI_EXTRACT_FQ DEDUP_BAM PRE_DEDUP_BAM PRE_DEDUP_GROUPS_TSV
  POST_DEDUP_GROUPS_TSV READ_COUNTS_FILE : string.

(** [prep_riboviz.prep_riboviz] and [nextflow.run_nextflow], with the
    environment of the run: the exit code of the workflow on a configuration
    file. *)
Variables prep_riboviz run_nextflow : string -> Z.

Definition prep_riboviz_fixture (skip_workflow_fixture : bool)
    (config_fixture : string) (nextflow_fixture : bool) : check unit :=
  when (negb skip_workflow_fixture)
    (let exit_code :=
       if negb nextflow_fixture then prep_riboviz config_fixture
       else run_nextflow config_fixture in
     py_assert (exit_code =? 0)%Z
       ("prep_riboviz returned non-zero exit code " ++ pretty exit_code)).

Definition test_hisat2_build_index
    (expected_fixture index_dir index_prefix : string) (index : nat)
  : check unit :=
  let file_name := HT2_FORMAT index_prefix index in
  call compare_files
    (expected_path expected_fixture index_dir [file_name])
    (path_join index_dir [file_name]).

Definition test_umitools_extract_fq (extract_umis : bool)
    (expected_fixture tmp_dir sample : string) : check unit :=
  when (negb extract_umis)
    (pytest_skip "Skipped test applicable to UMI extraction") ;;
  call compare_files
    (expected_path expected_fixture tmp_dir [sample; UMI_EXTRACT_FQ])
    (path_join tmp_dir [sample; UMI_EXTRACT_FQ]).

Definition test_samtools_view_sort_index_pre_dedup_bam (dedup_umis : bool)
    (expected_fixture tmp_dir sample : string) (nextflow_fixture : bool)
  : check unit :=
  when (negb dedup_umis)
    (pytest_skip "Skipped test applicable to UMI deduplication") ;;
  when nextflow_fixture
    (pytest_skip "Skipped test not applicable to Nextflow") ;;
  call compare_files
    (expected_path expected_fixture tmp_dir [sample; PRE_DEDUP_BAM])
    (path_join tmp_dir [sample; PRE_DEDUP_BAM]) ;;
  let bai_file_name := BAI_FORMAT PRE_DEDUP_BAM in
  call compare_files
    (expected_path expected_fixture tmp_dir [sample; bai_file_name])
    (path_join tmp_dir [sample; bai_file_name]).

Definition test_samtools_index_dedup_bam (dedup_umis : bool)
    (tmp_dir sample : string) (nextflow_fixture : bool) : check unit :=
  when (negb dedup_umis)
    (pytest_skip "Skipped test applicable to UMI deduplication") ;;
  when (negb nextflow_fixture)
    (pytest_skip "Skipped test applicable to Nextflow only") ;;
  found ← os_path_exists (path_join tmp_dir [sample; DEDUP_BAM]);
  py_assert found "" ;;
  found ← os_path_exists
            (path_join tmp_dir [sample; BAI_FORMAT DEDUP_BAM]);
  py_assert found "".

Definition test_samtools_view_sort_index (dedup_umis : bool)
    (expected_fixture output_dir sample : string) : check unit :=
  let file_name := BAM_FORMAT sample in
  let bai_file_name := BAI_FORMAT file_name in
  let expected_file :=
    expected_path expected_fixture output_dir [sample; file_name] in
  let expected_bai_file :=
    expected_path expected_fixture output_dir [sample; bai_file_name] in
  found ← os_path_exists expected_file;
  when (negb found)
    (pytest_skip "Skipped as expected file does not exist") ;;
  let actual_file := path_join output_dir [sample; file_name] in
  let actual_bai_file := path_join output_dir [sample; bai_file_name] in
  found ← os_path_exists actual_file;
  py_assert found "" ;;
  found ← os_path_exists actual_bai_file;
  py_assert found "" ;;
  if dedup_umis then mret tt
  else
    call compare_files expected_file actual_file ;;
    call compare_files expected_bai_file actual_bai_file.

Definition test_umitools_dedup_stats_tsv (dedup_umis dedup_stats : bool)
    (expected_fixture tmp_dir sample stats_file : string) : check unit :=
  when (negb dedup_umis)
    (pytest_skip "Skipped test applicable to UMI deduplication") ;;
  when (negb dedup_stats)
    (pytest_skip
       "Skipped test applicable to UMI deduplication statistics") ;;
  let file_name := path_join sample [DEDUP_STATS_FORMAT stats_file] in
  let expected_file := expected_path expected_fixture tmp_dir [file_name] in
  found ← os_path_exists expected_file;
  when (negb found)
    (pytest_skip "Skipped as expected file does not exist") ;;
  let actual_file := path_join tmp_dir [file_name] in
  found ← os_path_exists actual_file;
  py_assert found "".

Definition test_umitools_pre_dedup_group_tsv (group_umis : bool)
    (expected_fixture tmp_dir sample : string) : check unit :=
  when (negb group_umis)
    (pytest_skip "Skipped test applicable to UMI groups") ;;
  call compare_files
    (expected_path expected_fixture tmp_dir [sample; PRE_DEDUP_GROUPS_TSV])
    (path_join tmp_dir [sample; PRE_DEDUP_GROUPS_TSV]).

Definition test_umitools_post_dedup_group_tsv (group_umis : bool)
    (tmp_dir sample : string) : check unit :=
  when (negb group_umis)
    (pytest_skip "Skipped test applicable to UMI groups") ;;
  found ← os_path_exists
            (path_join tmp_dir [sample; POST_DEDUP_GROUPS_TSV]);
  py_assert found "".

(** The regression check of the bedgraph files takes no configuration
    flag: it is the expected file that decides. *)
Definition test_bedtools_bedgraph
    (expected_fixture output_dir sample file_name : string) : check unit :=
  let expected_file :=
    expected_path expected_fixture output_dir [sample; file_name] in
  found ← os_path_exists expected_file;
  when (negb found)
    (pytest_skip "Skipped as expected file does not exist") ;;
  call compare_files expected_file
    (path_join output_dir [sample; file_name]).

(** Nor does the regression check of the PDF files. *)
Definition test_generate_stats_figs_pdf
    (expected_fixture output_dir sample file_name : string) : check unit :=
  let expected_file :=
    expected_path expected_fixture output_dir [sample; file_name] in
  found ← os_path_exists expected_file;
  when (negb found)
    (pytest_skip "Skipped as expected file does not exist") ;;
  call compare_files expected_file
    (path_join output_dir [sample; file_name]).

Definition test_read_counts_tsv (expected_fixture output_dir : string)
  : check unit :=
  call equal_read_counts
    (expected_path expected_fixture output_dir [READ_COUNTS_FILE])
    (path_join output_dir [READ_COUNTS_FILE]).

End checks.
End regression.

(** ** Notions that the statements use *)

(** No legacy key of a rename table is also a current key of it. *)
Definition legacy_apart (rs : list (string * string)) : Prop :=
  forall k, k ∈ rs.*1 -> k ∉ rs.*2.

(** Every default that [upgrade_config] injects: [UPDATES], then the job
    configuration without the resume parameter. *)
Definition defaults_table : list (string * value) :=
  (UPDATES ++ job_config)%list.

Definition index_prefix_keys : list string :=
  [params.RRNA_INDEX_PREFIX; params.ORF_INDEX_PREFIX].

(** The configuration when the index-prefix loop starts. *)
Definition prepared (c : configuration) : configuration :=
  default_pass (rename_pass c).

(** Nothing is left for the rename and default loops to do. *)
Definition settled (c : configuration) : Prop :=
  (forall k, k ∈ RENAMES.*1 -> c !! k = None)
  ∧ (forall k, k ∈ defaults_table.*1 -> is_Some (c !! k)).

(** The configuration of the module documentation of [upgrade_config.py],
    with one obsolete key. *)
Definition vignette_config : configuration :=
  <["rRNA_index" := VStr "vignette/index/yeast_rRNA"]>
  (<["orf_index" := VStr "vignette/index/YAL_CDS_w_250"]>
  (<["aligner" := VStr "hisat2"]> ∅)).


(** The legacy keys that a later entry of the table moves to [new_key]. *)
Definition later_sources (i : nat) (new_key : string) : list string :=
  (filter (fun entry => entry.2 = new_key) (drop (S i) RENAMES)).*1.

(** The value that the rename loop leaves under an index-prefix key: the
    value of the legacy key when the input has it, that of the current key
    otherwise. *)
Definition index_source (legacy_key current_key : string)
    (c : configuration) : option value :=
  match c !! legacy_key with
  | Some v => Some v
  | None => c !! current_key
  end.


(** A configuration that holds an obsolete key and nothing else. *)
Definition obsolete_only_config : configuration :=
  <["aligner" := VStr "hisat2"]> ∅.


(** A current configuration with a key that riboviz does not know and a
    read-count threshold that is no integer. *)
Definition stray_config : configuration :=
  <["no_such_parameter" := VInt 1]>
  (<[params.COUNT_THRESHOLD := VStr "many"]>
  (<[params.RRNA_INDEX_PREFIX := VStr "yeast_rRNA"]>
  (<[params.ORF_INDEX_PREFIX := VStr "YAL_CDS_w_250"]> ∅))).

(** A directory name proper: not empty, without a separator, and neither
    [.] nor [..]. *)
Definition is_segment (seg : string) : Prop :=
  seg ≠ "" ∧ rfind_sep seg = None ∧ seg ≠ "." ∧ seg ≠ "..".

(** What may stand before the last segment of a path: nothing, or anything
    that ends with a separator. *)
Definition ends_dir (pre : string) : Prop :=
  pre = "" ∨ exists pre', pre = pre' ++ "/".

(** A run with deduplication in which the expected and the actual BAM file
    are there and the index of the actual one is not. *)
Definition missing_bai_world : world :=
  {| path_exists := fun path =>
       bool_decide (path = "/x/y/simdata_umi_output/umi5/umi5.bam")
       || bool_decide (path = "vignette/simdata_umi_output/umi5/umi5.bam");
     differ := fun _ _ _ => Some "files differ" |}.

(** The feature flags that the fixtures read from the configuration. *)
Record flags : Type := {
  build_indices : bool;
  extract_umis : bool;
  dedup_umis : bool;
  dedup_stats : bool;
  group_umis : bool;
  make_bedgraph : bool;
  output_pdfs : bool;
  run_static_html : bool;
  count_reads : bool
}.

(** The other fixtures and parameters of the checks; [check_index_tmp] is
    the command-line option that [skip_index_tmp_fixture] reads. *)
Record fixtures : Type := {
  expected_fixture : string;
  dir_index : string;
  dir_tmp : string;
  dir_out : string;
  sample : string;
  file_name : string;
  stats_file : string;
  index_prefix : string;
  index : nat;
  nextflow_fixture : bool;
  skip_workflow_fixture : bool;
  config_fixture : string;
  check_index_tmp : bool
}.

(** What the checks and their fixtures take from modules outside the
    sources: the file names and formats, the exit code with which each of
    the two workflow runners ends on a configuration file, and the reason
    that [skip_index_tmp_fixture] gives. *)
Record file_names : Type := {
  HT2_FORMAT : string -> nat -> string;
  BAI_FORMAT : string -> string;
  DEDUP_STATS_FORMAT : string -> string;
  STATIC_HTML_FILE : string -> string;
  UMI_EXTRACT_FQ : string;
  DEDUP_BAM : string;
  PRE_DEDUP_BAM : string;
  PRE_DEDUP_GROUPS_TSV : string;
  POST_DEDUP_GROUPS_TSV : string;
  READ_COUNTS_PER_FILE_FILE : string;
  READ_COUNTS_FILE : string;
  prep_riboviz : string -> Z;
  run_nextflow : string -> Z;
  skip_index_tmp_reason : string
}.

(** The feature flags by name. *)
Inductive flag : Type :=
  | Build_indices | Extract_umis | Dedup_umis | Dedup_stats | Group_umis
  | Make_bedgraph | Output_pdfs | Run_static_html | Count_reads.

#[global] Instance flag_eq_dec : EqDecision flag.
Proof. solve_decision. Defined.

Definition flag_value (f : flag) (fl : flags) : bool :=
  match f with
  | Build_indices => build_indices fl
  | Extract_umis => extract_umis fl
  | Dedup_umis => dedup_umis fl
  | Dedup_stats => dedup_stats fl
  | Group_umis => group_umis fl
  | Make_bedgraph => make_bedgraph fl
  | Output_pdfs => output_pdfs fl
  | Run_static_html => run_static_html fl
  | Count_reads => count_reads fl
  end.

(** The files of a run that exist only when feature flags are set. *)
Inductive artifact : Type :=
  | hisat2_index_files
  | umi_extracted_reads
  | pre_dedup_bam_files
  | dedup_bam_files
  | dedup_stats_files
  | pre_dedup_groups_file
  | post_dedup_groups_file
  | bedgraph_files
  | stats_figs_pdf_files
  | static_html_file
  | read_counts_file.

(** The flags that govern an artifact, in the sense of the specification
    (the feature flags governing an artifact's existence): a table by
    artifact, whichever suite checks it, as the docstrings of the test
    functions name the steps of the configuration that produce the file.
    The UMI group files and the deduplication statistics files belong to
    the deduplication step. *)
Definition governs (a : artifact) : list flag :=
  match a with
  | hisat2_index_files => [Build_indices]
  | umi_extracted_reads => [Extract_umis]
  | pre_dedup_bam_files | dedup_bam_files => [Dedup_umis]
  | dedup_stats_files => [Dedup_umis; Dedup_stats]
  | pre_dedup_groups_file | post_dedup_groups_file =>
      [Dedup_umis; Group_umis]
  | bedgraph_files => [Make_bedgraph]
  | stats_figs_pdf_files => [Output_pdfs]
  | static_html_file => [Run_static_html]
  | read_counts_file => [Count_reads]
  end.

Inductive suite : Type := integration_suite | regression_suite.

(** The checks of these artifacts: every test function of the two modules
    that looks for one of them. The regression suite has no check of the
    static HTML file. *)
Inductive flagged_check : Type :=
  | integration_hisat2_build_index
  | integration_umitools_extract_fq
  | integration_samtools_index_dedup_bam
  | integration_umitools_dedup_stats_tsv
  | integration_umitools_pre_dedup_group_tsv
  | integration_umitools_post_dedup_group_tsv
  | integration_bedtools_bedgraph
  | integration_generate_stats_figs_pdf
  | integration_analysis_outputs_html
  | integration_read_counts_per_file_tsv
  | regression_hisat2_build_index
  | regression_umitools_extract_fq
  | regression_samtools_view_sort_index_pre_dedup_bam
  | regression_samtools_index_dedup_bam
  | regression_umitools_dedup_stats_tsv
  | regression_umitools_pre_dedup_group_tsv
  | regression_umitools_post_dedup_group_tsv
  | regression_bedtools_bedgraph
  | regression_generate_stats_figs_pdf
  | regression_read_counts_tsv.

Definition suite_of (ck : flagged_check) : suite :=
  match ck with
  | integration_hisat2_build_index
  | integration_umitools_extract_fq
  | integration_samtools_index_dedup_bam
  | integration_umitools_dedup_stats_tsv
  | integration_umitools_pre_dedup_group_tsv
  | integration_umitools_post_dedup_group_tsv
  | integration_bedtools_bedgraph
  | integration_generate_stats_figs_pdf
  | integration_analysis_outputs_html
  | integration_read_counts_per_file_tsv => integration_suite
  | _ => regression_suite
  end.

(** The artifact that a check looks for. *)
Definition artifact_of (ck : flagged_check) : artifact :=
  match ck with
  | integration_hisat2_build_index | regression_hisat2_build_index =>
      hisat2_index_files
  | integration_umitools_extract_fq | regression_umitools_extract_fq =>
      umi_extracted_reads
  | regression_samtools_view_sort_index_pre_dedup_bam => pre_dedup_bam_files
  | integration_samtools_index_dedup_bam
  | regression_samtools_index_dedup_bam => dedup_bam_files
  | integration_umitools_dedup_stats_tsv
  | regression_umitools_dedup_stats_tsv => dedup_stats_files
  | integration_umitools_pre_dedup_group_tsv
  | regression_umitools_pre_dedup_group_tsv => pre_dedup_groups_file
  | integration_umitools_post_dedup_group_tsv
  | regression_umitools_post_dedup_group_tsv => post_dedup_groups_file
  | integration_bedtools_bedgraph | regression_bedtools_bedgraph =>
      bedgraph_files
  | integration_generate_stats_figs_pdf
  | regression_generate_stats_figs_pdf => stats_figs_pdf_files
  | integration_analysis_outputs_html => static_html_file
  | integration_read_counts_per_file_tsv | regression_read_counts_tsv =>
      read_counts_file
  end.

(** The flags that govern the artifact of a check. *)
Definition governing (ck : flagged_check) : list flag :=
  governs (artifact_of ck).

(** The flags that the test function of a check takes as fixtures. *)
Definition reads (ck : flagged_check) : list flag :=
  match ck with
  | integration_hisat2_build_index => [Build_indices]
  | integration_umitools_extract_fq | regression_umitools_extract_fq =>
      [Extract_umis]
  | integration_samtools_index_dedup_bam
  | regression_samtools_view_sort_index_pre_dedup_bam
  | regression_samtools_index_dedup_bam => [Dedup_umis]
  | integration_umitools_dedup_stats_tsv
  | regression_umitools_dedup_stats_tsv => [Dedup_umis; Dedup_stats]
  | integration_umitools_pre_dedup_group_tsv
  | integration_umitools_post_dedup_group_tsv => [Dedup_umis; Group_umis]
  | regression_umitools_pre_dedup_group_tsv
  | regression_umitools_post_dedup_group_tsv => [Group_umis]
  | integration_bedtools_bedgraph => [Make_bedgraph]
  | integration_generate_stats_figs_pdf => [Output_pdfs]
  | integration_analysis_outputs_html => [Run_static_html]
  | integration_read_counts_per_file_tsv => [Count_reads]
  | regression_hisat2_build_index
  | regression_bedtools_bedgraph
  | regression_generate_stats_figs_pdf
  | regression_read_counts_tsv => []
  end.

(** Whether the test function carries the mark
    [@pytest.mark.usefixtures("skip_index_tmp_fixture")]: the checks of the
    index and temporary files do, those of the output files do not. *)
Definition index_tmp (ck : flagged_check) : bool :=
  match ck with
  | integration_hisat2_build_index
  | integration_umitools_extract_fq
  | integration_samtools_index_dedup_bam
  | integration_umitools_dedup_stats_tsv
  | integration_umitools_pre_dedup_group_tsv
  | integration_umitools_post_dedup_group_tsv
  | regression_hisat2_build_index
  | regression_umitools_extract_fq
  | regression_samtools_view_sort_index_pre_dedup_bam
  | regression_samtools_index_dedup_bam
  | regression_umitools_dedup_stats_tsv
  | regression_umitools_pre_dedup_group_tsv
  | regression_umitools_post_dedup_group_tsv => true
  | integration_bedtools_bedgraph
  | integration_generate_stats_figs_pdf
  | integration_analysis_outputs_html
  | integration_read_counts_per_file_tsv
  | regression_bedtools_bedgraph
  | regression_generate_stats_figs_pdf
  | regression_read_counts_tsv => false
  end.

(** The workflow fixture of a suite, which every check carries in the mark
    [@pytest.mark.usefixtures("prep_riboviz_fixture")]. *)
Definition prep_fixture (nm : file_names) (s : suite) (fx : fixtures)
  : check unit :=
  match s with
  | integration_suite =>
      integration.prep_riboviz_fixture (run_nextflow nm)
        (skip_workflow_fixture fx) (config_fixture fx)
  | regression_suite =>
      regression.prep_riboviz_fixture (prep_riboviz nm) (run_nextflow nm)
        (skip_workflow_fixture fx) (config_fixture fx) (nextflow_fixture fx)
  end.

(** The fixtures of the [usefixtures] marks of a check, which pytest sets up
    before it calls the test function: the workflow fixture, and for a check
    of index or temporary files the skip fixture. *)
Definition usefixtures (nm : file_names) (ck : flagged_check)
    (fx : fixtures) : check unit :=
  prep_fixture nm (suite_of ck) fx ;;
  when (index_tmp ck)
    (skip_index_tmp_fixture (check_index_tmp fx) (skip_index_tmp_reason nm)).

(** The test function of a check, with its fixtures filled in. *)
Definition test_function (nm : file_names) (ck : flagged_check) (fl : flags)
    (fx : fixtures) : check unit :=
  match ck with
  | integration_hisat2_build_index =>
      integration.test_hisat2_build_index (HT2_FORMAT nm)
        (build_indices fl) (expected_fixture fx) (dir_index fx)
        (index_prefix fx) (index fx)
  | integration_umitools_extract_fq =>
      integration.test_umitools_extract_fq (UMI_EXTRACT_FQ nm)
        (extract_umis fl) (expected_fixture fx) (dir_tmp fx) (sample fx)
  | integration_samtools_index_dedup_bam =>
      integration.test_samtools_index_dedup_bam (BAI_FORMAT nm)
        (DEDUP_BAM nm) (dedup_umis fl) (dir_tmp fx) (sample fx)
  | integration_umitools_dedup_stats_tsv =>
      integration.test_umitools_dedup_stats_tsv (DEDUP_STATS_FORMAT nm)
        (dedup_umis fl) (dedup_stats fl) (expected_fixture fx) (dir_tmp fx)
        (sample fx) (stats_file fx)
  | integration_umitools_pre_dedup_group_tsv =>
      integration.test_umitools_pre_dedup_group_tsv
        (PRE_DEDUP_GROUPS_TSV nm) (dedup_umis fl) (group_umis fl)
        (expected_fixture fx) (dir_tmp fx) (sample fx)
  | integration_umitools_post_dedup_group_tsv =>
      integration.test_umitools_post_dedup_group_tsv
        (POST_DEDUP_GROUPS_TSV nm) (dedup_umis fl) (group_umis fl)
        (dir_tmp fx) (sample fx)
  | integration_bedtools_bedgraph =>
      integration.test_bedtools_bedgraph (expected_fixture fx)
        (make_bedgraph fl) (dir_out fx) (sample fx) (file_name fx)
  | integration_generate_stats_figs_pdf =>
      integration.test_generate_stats_figs_pdf (expected_fixture fx)
        (dir_out fx) (sample fx) (file_name fx) (output_pdfs fl)
  | integration_analysis_outputs_html =>
      integration.test_analysis_outputs_html (STATIC_HTML_FILE nm)
        (run_static_html fl) (expected_fixture fx) (dir_out fx) (sample fx)
        (file_name fx)
  | integration_read_counts_per_file_tsv =>
      integration.test_read_counts_per_file_tsv
        (READ_COUNTS_PER_FILE_FILE nm) (count_reads fl)
        (expected_fixture fx) (dir_out fx)
  | regression_umitools_extract_fq =>
      regression.test_umitools_extract_fq (UMI_EXTRACT_FQ nm)
        (extract_umis fl) (expected_fixture fx) (dir_tmp fx) (sample fx)
  | regression_samtools_view_sort_index_pre_dedup_bam =>
      regression.test_samtools_view_sort_index_pre_dedup_bam
        (BAI_FORMAT nm) (PRE_DEDUP_BAM nm) (dedup_umis fl)
        (expected_fixture fx) (dir_tmp fx) (sample fx) (nextflow_fixture fx)
  | regression_samtools_index_dedup_bam =>
      regression.test_samtools_index_dedup_bam (BAI_FORMAT nm)
        (DEDUP_BAM nm) (dedup_umis fl) (dir_tmp fx) (sample fx)
        (nextflow_fixture fx)
  | regression_umitools_dedup_stats_tsv =>
      regression.test_umitools_dedup_stats_tsv (DEDUP_STATS_FORMAT nm)
        (dedup_umis fl) (dedup_stats fl) (expected_fixture fx) (dir_tmp fx)
        (sample fx) (stats_file fx)
  | regression_umitools_pre_dedup_group_tsv =>
      regression.test_umitools_pre_dedup_group_tsv (PRE_DEDUP_GROUPS_TSV nm)
        (group_umis fl) (expected_fixture fx) (dir_tmp fx) (sample fx)
  | regression_umitools_post_dedup_group_tsv =>
      regression.test_umitools_post_dedup_group_tsv
        (POST_DEDUP_GROUPS_TSV nm) (group_umis fl) (dir_tmp fx) (sample fx)
  | regression_bedtools_bedgraph =>
      regression.test_bedtools_bedgraph (expected_fixture fx) (dir_out fx)
        (sample fx) (file_name fx)
  | regression_hisat2_build_index =>
      regression.test_hisat2_build_index (HT2_FORMAT nm)
        (expected_fixture fx) (dir_index fx) (index_prefix fx) (index fx)
  | regression_generate_stats_figs_pdf =>
      regression.test_generate_stats_figs_pdf (expected_fixture fx)
        (dir_out fx) (sample fx) (file_name fx)
  | regression_read_counts_tsv =>
      regression.test_read_counts_tsv (READ_COUNTS_FILE nm)
        (expected_fixture fx) (dir_out fx)
  end.

(** A check as pytest runs it: the fixtures of its marks, then the test
    function. *)
Definition body (nm : file_names) (ck : flagged_check) (fl : flags)
    (fx : fixtures) : check unit :=
  usefixtures nm ck fx ;; test_function nm ck fl fx.

(** The vignette's names for the files of the checks, a workflow that ends
    with exit code 0, and a reason for the skip fixture. *)
Definition vignette_names : file_names :=
  {| HT2_FORMAT := fun index_prefix index => index_prefix ++ ".ht2";
     BAI_FORMAT := fun file_name => file_name ++ ".bai";
     DEDUP_STATS_FORMAT := fun stats_file => "dedup_stats_" ++ stats_file;
     STATIC_HTML_FILE := fun sample => sample ++ "_output_report.html";
     UMI_EXTRACT_FQ := "extract_trim.fq";
     DEDUP_BAM := "dedup.bam";
     PRE_DEDUP_BAM := "pre_dedup.bam";
     PRE_DEDUP_GROUPS_TSV := "pre_dedup_groups.tsv";
     POST_DEDUP_GROUPS_TSV := "post_dedup_groups.tsv";
     READ_COUNTS_PER_FILE_FILE := "read_counts_per_file.tsv";
     READ_COUNTS_FILE := "read_counts.tsv";
     prep_riboviz := fun _ => 0%Z;
     run_nextflow := fun _ => 0%Z;
     skip_index_tmp_reason := "Skipped index and temporary files tests" |}.

(** The fixtures of a run of pytest on the files of the vignette, with
    [--skip-workflow] and [--check-index-tmp]. *)
Definition vignette_fixtures : fixtures :=
  {| expected_fixture := "/x/y";
     dir_index := "vignette/index";
     dir_tmp := "vignette/tmp";
     dir_out := "vignette/output";
     sample := "WTnone";
     file_name := "plus.bedgraph";
     stats_file := "per_umi.tsv";
     index_prefix := "yeast_rRNA";
     index := 1;
     nextflow_fixture := false;
     skip_workflow_fixture := true;
     config_fixture := "vignette/vignette_config.yaml";
     check_index_tmp := true |}.

(** The fixtures of a run with neither option, as pytest runs the suites by
    default: the workflow is run first and the index and temporary files
    are not checked. *)
Definition default_fixtures : fixtures :=
  {| expected_fixture := "/x/y";
     dir_index := "vignette/index";
     dir_tmp := "vignette/tmp";
     dir_out := "vignette/output";
     sample := "WTnone";
     file_name := "plus.bedgraph";
     stats_file := "per_umi.tsv";
     index_prefix := "yeast_rRNA";
     index := 1;
     nextflow_fixture := false;
     skip_workflow_fixture := false;
     config_fixture := "vignette/vignette_config.yaml";
     check_index_tmp := false |}.

(** A configuration that turns every optional step off. *)
Definition all_off : flags :=
  {| build_indices := false; extract_umis := false; dedup_umis := false;
     dedup_stats := false; group_umis := false; make_bedgraph := false;
     output_pdfs := false; run_static_html := false; count_reads := false |}.

(** The expected directory holds a bedgraph file from an earlier run and the
    run under test made none. *)
Definition stale_bedgraph_world : world :=
  {| path_exists := fun path =>
       bool_decide (path = "/x/y/output/WTnone/plus.bedgraph");
     differ := fun _ _ actual => Some ("Non-existent file: " ++ actual) |}.

(** The runs of the check of a sample's output BAM file, one per suite. *)
Definition view_sort_index_runs (BAM_FORMAT BAI_FORMAT : string -> string)
    (w : world) (expected_fixture dir_out sample : string)
    (dedup_umis : bool) : list (list event * verdict) :=
  [ run (integration.test_samtools_view_sort_index BAM_FORMAT BAI_FORMAT
           dedup_umis expected_fixture dir_out sample) w;
    run (regression.test_samtools_view_sort_index BAM_FORMAT BAI_FORMAT
           dedup_umis expected_fixture dir_out sample) w ].

(** A configuration on which [upgrade_config] has nothing to do: no legacy
    key, every default present, both index prefixes bare file names, and no
    obsolete key. *)
Definition up_to_date (c : configuration) : Prop :=
  settled c
  ∧ (forall k, k ∈ index_prefix_keys ->
       exists name, c !! k = Some (VStr name) ∧ rfind_sep name = None)
  ∧ (forall k, k ∈ UNUSED -> c !! k = None).

(** A value that the input mapping holds under some key. *)
Definition from_input (c : configuration) (v : value) : Prop :=
  exists k, c !! k = Some v.

(** The legacy key of each index-prefix key, as [RENAMES] pairs them. *)
Definition index_key_pairs : list (string * string) :=
  [ ("rRNA_index", params.RRNA_INDEX_PREFIX);
    ("orf_index", params.ORF_INDEX_PREFIX) ].

(** A file system with the old vignette configuration in [old.yaml] and no
    directory [nodir]: a file of the working directory can be opened for
    writing, a file under [nodir/] cannot. *)
Definition old_files : filesystem :=
  {| fs_exists := fun path => bool_decide (path = "old.yaml");
     fs_isfile := fun path => bool_decide (path = "old.yaml");
     fs_load := fun path =>
       if bool_decide (path = "old.yaml") then Some vignette_config
       else None;
     fs_open_w := fun path => negb (String.prefix "nodir/" path) |}.

(** The same file system once the upgraded configuration is in
    [new.yaml]. *)
Definition new_files : filesystem :=
  {| fs_exists := fun path =>
       bool_decide (path = "old.yaml") || bool_decide (path = "new.yaml");
     fs_isfile := fun path =>
       bool_decide (path = "old.yaml") || bool_decide (path = "new.yaml");
     fs_load := fun path =>
       if bool_decide (path = "new.yaml")
       then Some (upgrade_config vignette_config).1
       else if bool_decide (path = "old.yaml") then Some vignette_config
       else None;
     fs_open_w := fun path => negb (String.prefix "nodir/" path) |}.

(** What a returning [upgrade_config_file] does with the upgraded
    configuration. *)
Definition emit (output_file : option string) (dumped : configuration)
  : effect :=
  match output_file with
  | Some path => WriteFile path dumped
  | None => PrintConfig dumped
  end.

(** Whether the upgraded configuration can be put out: the standard output
    always takes it, an output file has to open for writing. *)
Definition can_emit (fs : filesystem) (output_file : option string) : bool :=
  match output_file with
  | Some path => fs_open_w fs path
  | None => true
  end.

(** The checks that look for a file and never at its content. *)
Definition existence_only (ck : flagged_check) : bool :=
  match ck with
  | integration_samtools_index_dedup_bam
  | integration_umitools_dedup_stats_tsv
  | integration_umitools_post_dedup_group_tsv
  | integration_generate_stats_figs_pdf
  | regression_samtools_index_dedup_bam
  | regression_umitools_dedup_stats_tsv
  | regression_umitools_post_dedup_group_tsv => true
  | _ => false
  end.

(** Every path that a run looked at was there, and no comparator ran. *)
Definition all_found (w : world) (t : list event) : bool :=
  forallb (fun e => match e with
                    | Exists path => path_exists w path
                    | Compared _ _ _ => false
                    end) t.

(** A configuration that turns every optional step on. *)
Definition all_on : flags :=
  {| build_indices := true; extract_umis := true; dedup_umis := true;
     dedup_stats := true; group_umis := true; make_bedgraph := true;
     output_pdfs := true; run_static_html := true; count_reads := true |}.

(** The checks whose test function does not take a flag that governs their
    artifact, with that flag. *)
Definition unread_flags : list (flagged_check * flag) :=
  [ (regression_hisat2_build_index, Build_indices);
    (regression_umitools_pre_dedup_group_tsv, Dedup_umis);
    (regression_umitools_post_dedup_group_tsv, Dedup_umis);
    (regression_bedtools_bedgraph, Make_bedgraph);
    (regression_generate_stats_figs_pdf, Output_pdfs);
    (regression_read_counts_tsv, Count_reads) ].

(** A configuration that turns one optional step off and leaves the others
    on. *)
Definition only_off (f : flag) : flags :=
  {| build_indices := negb (bool_decide (f = Build_indices));
     extract_umis := negb (bool_decide (f = Extract_umis));
     dedup_umis := negb (bool_decide (f = Dedup_umis));
     dedup_stats := negb (bool_decide (f = Dedup_stats));
     group_umis := negb (bool_decide (f = Group_umis));
     make_bedgraph := negb (bool_decide (f = Make_bedgraph));
     output_pdfs := negb (bool_decide (f = Output_pdfs));
     run_static_html := negb (bool_decide (f = Run_static_html));
     count_reads := negb (bool_decide (f = Count_reads)) |}.

(** Every file is where the checks look for it, and no two files are
    equivalent. *)
Definition everything_there : world :=
  {| path_exists := fun _ => true;
     differ := fun _ _ _ => Some "files differ" |}.

(** ** [compare_sam_files]: comparison through sorted copies

    [compare_sam_files] makes two directories in the scratch directory of
    the test, has [pysam.sort] write a sorted copy of each file there and
    compares the copies. The state is the set of paths that exist in the
    scratch area; [os.mkdir] raises [FileExistsError] on a path that
    exists (the scratch directory itself is the one the fixture made for
    the test). [pysam.sort] and the comparator are outside the program:
    [sort_ok] says whether sorting an input succeeds and [copies_differ]
    is the comparator's verdict on two copies. *)

Inductive scratch_event : Type :=
  | Mkdir (path : string)
  | Sorted (output input : string)
  | ComparedCopies (cmp : comparator) (expected actual : string).

Inductive scratch_error : Type :=
  | FileExistsError (path : string)
  | SamtoolsError (input : string)
  | NotEquivalent (diagnostic : string).

Record sam_tools : Type := {
  sort_ok : string -> bool;
  copies_differ : comparator -> string -> string -> option string
}.

Definition scratch (A : Type) : Type :=
  gset string -> gset string * list scratch_event * (A + scratch_error).

#[global] Instance scratch_ret : MRet scratch :=
  fun A a existing => (existing, [], inl a).

#[global] Instance scratch_bind : MBind scratch := fun A B f m existing =>
  match m existing with
  | (existing', t, inl a) =>
      let '(existing'', t', r) := f a existing' in
      (existing'', (t ++ t')%list, r)
  | (existing', t, inr e) => (existing', t, inr e)
  end.

Definition os_mkdir (path : string) : scratch unit :=
  fun existing =>
    if decide (path ∈ existing)
    then (existing, [], inr (FileExistsError path))
    else ({[path]} ∪ existing, [Mkdir path], inl tt).

(** [pysam.sort("-o", output, input)]. *)
Definition pysam_sort (tools : sam_tools) (output input : string)
  : scratch unit :=
  fun existing =>
    if sort_ok tools input
    then ({[output]} ∪ existing, [Sorted output input], inl tt)
    else (existing, [], inr (SamtoolsError input)).

Definition compare_copies (tools : sam_tools) (cmp : comparator)
    (expected actual : string) : scratch unit :=
  fun existing =>
    (existing, [ComparedCopies cmp expected actual],
     match copies_differ tools cmp expected actual with
     | None => inl tt
     | Some diagnostic => inr (NotEquivalent diagnostic)
     end).

(** [compare_sam_files] of either suite; the integration suite compares
    the copies with [sam_bam.equal_sam], the regression suite with
    [compare_files.compare_files]. *)
Definition compare_sam_files_with (cmp : comparator) (tools : sam_tools)
    (expected_directory directory scratch_directory sample
       file_name : string) : scratch unit :=
  let dir_name := basename (normpath directory) in
  let expected_file :=
    path_join expected_directory [dir_name; sample; file_name] in
  let actual_file := path_join directory [sample; file_name] in
  let expected_copy_dir := path_join scratch_directory ["expected"] in
  os_mkdir expected_copy_dir ;;
  let actual_copy_dir := path_join scratch_directory ["actual"] in
  os_mkdir actual_copy_dir ;;
  let expected_copy_file := path_join expected_copy_dir [file_name] in
  let actual_copy_file := path_join actual_copy_dir [file_name] in
  pysam_sort tools expected_copy_file expected_file ;;
  pysam_sort tools actual_copy_file actual_file ;;
  compare_copies tools cmp expected_copy_file actual_copy_file.

Module integration_sam.

Definition compare_sam_files := compare_sam_files_with equal_sam.

(** [test_hisat2_sam], for each [file_name] of its parameter list, and
    [test_trim5p_mismatch_sam] with the mismatch-trimmed SAM file. *)
Definition test_hisat2_sam (tools : sam_tools)
    (expected_fixture dir_tmp scratch_directory sample file_name : string)
  : scratch unit :=
  compare_sam_files tools expected_fixture dir_tmp scratch_directory sample
    file_name.

Definition test_trim5p_mismatch_sam (ORF_MAP_CLEAN_SAM : string)
    (tools : sam_tools)
    (expected_fixture dir_tmp scratch_directory sample : string)
  : scratch unit :=
  compare_sam_files tools expected_fixture dir_tmp scratch_directory sample
    ORF_MAP_CLEAN_SAM.

End integration_sam.

Module regression_sam.

Definition compare_sam_files := compare_sam_files_with compare_files.

Definition test_hisat2_sam (tools : sam_tools)
    (expected_fixture tmp_dir scratch_directory sample file_name : string)
  : scratch unit :=
  compare_sam_files tools expected_fixture tmp_dir scratch_directory sample
    file_name.

Definition test_trim5p_mismatch_sam (ORF_MAP_CLEAN_SAM : string)
    (tools : sam_tools)
    (expected_fixture tmp_dir scratch_directory sample : string)
  : scratch unit :=
  compare_sam_files tools expected_fixture tmp_dir scratch_directory sample
    ORF_MAP_CLEAN_SAM.

End regression_sam.

(** The paths that [compare_sam_files] makes in the scratch directory. *)
Definition copy_dir (scratch_directory side : string) : string :=
  path_join scratch_directory [side].

Definition copy_file (scratch_directory side file_name : string) : string :=
  path_join (copy_dir scratch_directory side) [file_name].

(** A sorting tool that succeeds on every file, with copies that are
    equivalent. *)
Definition good_tools : sam_tools :=
  {| sort_ok := fun _ => true; copies_differ := fun _ _ _ => None |}.

(** What [os.path.join] puts before a relative component: the path so
    far, with a separator unless it is empty or ends with one. *)
Definition dir_prefix (s : string) : string :=
  if String.eqb s "" || ends_with_sep s then s else s ++ "/".

(** * Properties *)

(** Membership in a table that is written out. *)
Ltac in_table :=
  apply list_elem_of_In; vm_compute;
  repeat (first [left; reflexivity | right]).

(** Unfolds a check down to the world it consults. *)
Ltac unfold_check :=
  unfold run, when, pytest_skip, os_path_exists, py_assert, call,
    mbind, mret, check_bind, check_ret; cbn beta iota zeta.

(** Closes the case of a check that starts by reading its flags. *)
Ltac skipped_by_flag :=
  unfold_check;
  repeat match goal with
         | H : _ = false |- _ => rewrite H
         | |- context [negb (?f ?fl)] => destruct (f fl)
         end;
  cbn; (eexists; split; [reflexivity | discriminate]).

(** ** The path functions on examples *)

Example normpath_trailing : normpath "a/b/vignette/index/" = "a/b/vignette/index".
Proof. reflexivity. Qed.

Example normpath_dots : normpath "/a/./b/../c//d/" = "/a/c/d".
Proof. reflexivity. Qed.

Example normpath_two_slashes : normpath "//a/../.." = "//".
Proof. reflexivity. Qed.

Example normpath_up : normpath "../a/../../b" = "../../b".
Proof. reflexivity. Qed.

Example path_split_file : path_split "vignette/index/yeast_rRNA"
                          = ("vignette/index", "yeast_rRNA").
Proof. reflexivity. Qed.

Example path_split_root : path_split "//x" = ("//", "x").
Proof. reflexivity. Qed.

Example path_join_abs : path_join "/x/y" ["index"; "/abs"; "f"] = "/abs/f".
Proof. reflexivity. Qed.

(** ** Paths: the last segment *)

Lemma is_sep_true (a : ascii) : is_sep a = true -> a = sep.
Proof. unfold is_sep. intros H. now apply Ascii.eqb_eq. Qed.

Lemma slice_from_0 (p : string) : slice_from 0 p = p.
Proof. now destruct p. Qed.

Lemma basename_cons (a : ascii) (rest : string) :
  basename (String a rest) =
  match rfind_sep rest with
  | Some _ => basename rest
  | None => if is_sep a then rest else String a rest
  end.
Proof.
  unfold basename, split_index. simpl.
  destruct (rfind_sep rest) as [i|]; [reflexivity|].
  destruct (is_sep a); simpl; [apply slice_from_0 | reflexivity].
Qed.

Lemma basename_no_sep (p : string) : rfind_sep p = None -> basename p = p.
Proof.
  intros H. unfold basename, split_index. rewrite H. apply slice_from_0.
Qed.

Lemma rfind_sep_basename (p : string) : rfind_sep (basename p) = None.
Proof.
  induction p as [|a rest IH]; [reflexivity|].
  rewrite basename_cons.
  destruct (rfind_sep rest) as [i|] eqn:Hrest; [exact IH|].
  destruct (is_sep a) eqn:Ha; [exact Hrest|].
  simpl. now rewrite Hrest, Ha.
Qed.

(** Taking the last segment of a last segment changes nothing. *)
Lemma basename_idemp (p : string) : basename (basename p) = basename p.
Proof. apply basename_no_sep, rfind_sep_basename. Qed.

Lemma append_nil_l (s : string) : "" ++ s = s.
Proof. reflexivity. Qed.

Lemma append_cons (a : ascii) (s t : string) :
  String a s ++ t = String a (s ++ t).
Proof. reflexivity. Qed.

Lemma rfind_sep_app_sep (pre rest : string) :
  is_Some (rfind_sep (pre ++ String sep rest)).
Proof.
  induction pre as [|a pre IH].
  - rewrite append_nil_l. simpl. destruct (rfind_sep rest); eauto.
  - rewrite append_cons. simpl. destruct IH as [i ->]. eauto.
Qed.

(** After the last separator comes the last segment. *)
Lemma basename_app_segment (pre seg : string) :
  rfind_sep seg = None -> basename (pre ++ String sep seg) = seg.
Proof.
  intros Hseg. induction pre as [|a pre IH].
  - rewrite append_nil_l, basename_cons, Hseg. reflexivity.
  - rewrite append_cons, basename_cons.
    destruct (rfind_sep_app_sep pre seg) as [i ->]. exact IH.
Qed.


Lemma path_split_tail (p : string) : (path_split p).2 = basename p.
Proof. reflexivity. Qed.

(** ** The passes of [upgrade_config], one loop at a time *)

Section rename_loop.

Open Scope list_scope.
Implicit Types (c : configuration) (rs : list (string * string)).

Lemma rename_step_lookup c old_key new_key k :
  rename_step c (old_key, new_key) !! k =
  match c !! old_key with
  | Some v => if decide (new_key = k) then Some v
              else if decide (old_key = k) then None else c !! k
  | None => c !! k
  end.
Proof.
  unfold rename_step. destruct (c !! old_key) as [v|]; [|done].
  rewrite lookup_insert. case_decide; [done|]. apply lookup_delete.
Qed.

(** A key that the table names on neither side is left alone. *)
Lemma rename_loop_other rs c k :
  k ∉ rs.*1 -> k ∉ rs.*2 -> foldl rename_step c rs !! k = c !! k.
Proof.
  revert c. induction rs as [|[o n] rs IH]; intros c H1 H2; [done|].
  cbn in H1, H2. apply not_elem_of_cons in H1 as [? ?].
  apply not_elem_of_cons in H2 as [? ?].
  cbn [foldl]. rewrite IH by done. rewrite rename_step_lookup.
  destruct (c !! o); [|done]. by rewrite !decide_False.
Qed.

(** A key that is no target of a rename does not appear by renaming. *)
Lemma rename_loop_absent rs c k :
  k ∉ rs.*2 -> c !! k = None -> foldl rename_step c rs !! k = None.
Proof.
  revert c. induction rs as [|[o n] rs IH]; intros c H2 Hk; [done|].
  cbn in H2. apply not_elem_of_cons in H2 as [? ?].
  cbn [foldl]. apply IH; [done|]. rewrite rename_step_lookup.
  destruct (c !! o); [|done]. rewrite decide_False by done.
  by case_decide.
Qed.

(** A legacy key that is no target of a rename is gone after the loop. *)
Lemma rename_loop_legacy rs c k :
  k ∉ rs.*2 -> k ∈ rs.*1 -> foldl rename_step c rs !! k = None.
Proof.
  revert c. induction rs as [|[o n] rs IH]; intros c H2 H1.
  { by apply elem_of_nil in H1. }
  cbn in H1, H2. apply not_elem_of_cons in H2 as [? ?].
  cbn [foldl]. destruct (decide (k = o)) as [->|Hne].
  - apply rename_loop_absent; [done|]. rewrite rename_step_lookup.
    destruct (c !! o) eqn:Ho; [|done].
    rewrite decide_False by done. by rewrite decide_True.
  - apply IH; [done|]. apply elem_of_cons in H1 as [?|?]; done.
Qed.

(** Without legacy keys the loop changes nothing. *)
Lemma rename_loop_fixed rs c :
  (forall k, k ∈ rs.*1 -> c !! k = None) -> foldl rename_step c rs = c.
Proof.
  induction rs as [|[o n] rs IH]; intros H; [done|].
  cbn [foldl]. unfold rename_step at 2.
  rewrite (H o) by (cbn; left). apply IH.
  intros k Hk. apply H. cbn. by right.
Qed.

Lemma legacy_apart_cons o n rs :
  legacy_apart ((o, n) :: rs) -> legacy_apart rs.
Proof.
  intros H k Hk Hk2. apply (H k); cbn; by right.
Qed.

Lemma legacy_apart_app_r rs1 rs2 :
  legacy_apart (rs1 ++ rs2) -> legacy_apart rs2.
Proof.
  intros H k Hk Hk2. apply (H k); rewrite fmap_app, elem_of_app; by right.
Qed.

(** A current key is left alone while no legacy key that renames to it is
    present. *)
Lemma rename_loop_kept rs c new_key :
  legacy_apart rs ->
  new_key ∉ rs.*1 ->
  (forall o, (o, new_key) ∈ rs -> c !! o = None) ->
  foldl rename_step c rs !! new_key = c !! new_key.
Proof.
  revert c. induction rs as [|[o n] rs IH]; intros c Hap H1 Hsrc; [done|].
  cbn in H1. apply not_elem_of_cons in H1 as [Hno H1].
  cbn [foldl]. rewrite IH; [|by eapply legacy_apart_cons|done|].
  - rewrite rename_step_lookup. destruct (c !! o) eqn:Ho; [|done].
    destruct (decide (n = new_key)) as [->|Hn].
    + rewrite Hsrc in Ho by (by left). done.
    + by rewrite decide_False.
  - intros o' Ho'. rewrite rename_step_lookup.
    assert (c !! o' = None) as Hnone by (apply Hsrc; by right).
    destruct (c !! o) eqn:Ho; [|done].
    rewrite decide_False.
    + by case_decide.
    + intros ->. apply (Hap o').
      * cbn. right. apply list_elem_of_fmap. by exists (o', new_key).
      * cbn. by left.
Qed.

(** The value of a legacy key ends under its current key, unless a later
    entry of the table moves another present legacy key to the same
    current key. *)
Lemma rename_loop_moved rs1 rs2 c old_key new_key v :
  legacy_apart (rs1 ++ (old_key, new_key) :: rs2) ->
  old_key ∉ rs1.*1 ->
  (forall o, (o, new_key) ∈ rs2 -> c !! o = None) ->
  c !! old_key = Some v ->
  foldl rename_step c (rs1 ++ (old_key, new_key) :: rs2) !! new_key
  = Some v.
Proof.
  intros Hap H1 Hsrc Hv.
  assert (old_key ∈ (rs1 ++ (old_key, new_key) :: rs2).*1) as Hold.
  { rewrite fmap_app, elem_of_app. right. cbn. by left. }
  assert (new_key ∈ (rs1 ++ (old_key, new_key) :: rs2).*2) as Hnew.
  { rewrite fmap_app, elem_of_app. right. cbn. by left. }
  assert (forall k, k ∈ (rs1 ++ (old_key, new_key) :: rs2).*1 -> k ∉ rs1.*2)
    as Hap1.
  { intros k Hk Hk2. apply (Hap k Hk).
    rewrite fmap_app, elem_of_app. by left. }
  rewrite foldl_app. cbn [foldl].
  set (c1 := foldl rename_step c rs1).
  assert (c1 !! old_key = Some v) as Hc1.
  { unfold c1. rewrite rename_loop_other; auto. }
  apply legacy_apart_app_r in Hap as Hap2.
  rewrite rename_loop_kept.
  - rewrite rename_step_lookup, Hc1. by rewrite decide_True.
  - by eapply legacy_apart_cons.
  - intros Hin. apply (Hap new_key); [|done].
    rewrite fmap_app, elem_of_app. right. cbn. by right.
  - intros o Ho. rewrite rename_step_lookup, Hc1.
    assert (o ∈ (rs1 ++ (old_key, new_key) :: rs2).*1) as Hoin.
    { rewrite fmap_app, elem_of_app. right. cbn. right.
      apply list_elem_of_fmap. by exists (o, new_key). }
    rewrite decide_False by (intros ->; by apply (Hap o)).
    case_decide; [done|]. unfold c1.
    apply rename_loop_absent; auto.
Qed.

End rename_loop.

Section default_loop.

Open Scope list_scope.
Implicit Types (c : configuration) (ds : list (string * value)).

Lemma default_step_lookup c key d k :
  default_step c (key, d) !! k =
  match c !! key with
  | None => if decide (key = k) then Some d else c !! k
  | Some _ => c !! k
  end.
Proof.
  unfold default_step. destruct (c !! key); [done|]. apply lookup_insert.
Qed.

(** A present key keeps its value. *)
Lemma default_loop_present ds c k v :
  c !! k = Some v -> foldl default_step c ds !! k = Some v.
Proof.
  revert c. induction ds as [|[key d] ds IH]; intros c Hk; [done|].
  cbn [foldl]. apply IH. rewrite default_step_lookup.
  destruct (c !! key) eqn:Hkey; [done|].
  case_decide; [congruence|done].
Qed.

Lemma default_loop_other ds c k :
  k ∉ ds.*1 -> foldl default_step c ds !! k = c !! k.
Proof.
  revert c. induction ds as [|[key d] ds IH]; intros c H1; [done|].
  cbn in H1. apply not_elem_of_cons in H1 as [? ?].
  cbn [foldl]. rewrite IH by done. rewrite default_step_lookup.
  destruct (c !! key); [done|]. by rewrite decide_False.
Qed.

(** An absent key of the table receives the table's value. *)
Lemma default_loop_injected ds c k d :
  NoDup ds.*1 -> (k, d) ∈ ds -> c !! k = None ->
  foldl default_step c ds !! k = Some d.
Proof.
  revert c. induction ds as [|[key d'] ds IH]; intros c Hnd Hin Hk.
  { by apply elem_of_nil in Hin. }
  cbn in Hnd. apply NoDup_cons in Hnd as [Hkey Hnd].
  cbn [foldl]. apply elem_of_cons in Hin as [Heq|Hin].
  - injection Heq as <- <-. apply default_loop_present.
    rewrite default_step_lookup, Hk. by rewrite decide_True.
  - assert (key ≠ k) as Hne.
    { intros ->. apply Hkey. apply list_elem_of_fmap. by exists (k, d). }
    apply IH; [done..|]. rewrite default_step_lookup.
    destruct (c !! key); [done|]. by rewrite decide_False.
Qed.

Lemma default_loop_is_Some ds c k :
  k ∈ ds.*1 -> is_Some (foldl default_step c ds !! k).
Proof.
  revert c. induction ds as [|[key d] ds IH]; intros c H1.
  { by apply elem_of_nil in H1. }
  cbn in H1. cbn [foldl]. destruct (decide (k = key)) as [->|Hne].
  - destruct (default_step c (key, d) !! key) as [v|] eqn:Hstep.
    + erewrite default_loop_present; eauto.
    + rewrite default_step_lookup in Hstep.
      destruct (c !! key) eqn:Hkey; [congruence|].
      by rewrite decide_True in Hstep.
  - apply IH. apply elem_of_cons in H1 as [?|?]; done.
Qed.

(** With every key of the table present the loop changes nothing. *)
Lemma default_loop_fixed ds c :
  (forall k, k ∈ ds.*1 -> is_Some (c !! k)) -> foldl default_step c ds = c.
Proof.
  induction ds as [|[key d] ds IH]; intros H; [done|].
  cbn [foldl]. unfold default_step at 2.
  destruct (H key) as [v ->]; [cbn; by left|].
  apply IH. intros k Hk. apply H. cbn. by right.
Qed.

End default_loop.

Section removal_loop.

Open Scope list_scope.
Implicit Types (c : configuration) (us : list string).

Lemma remove_step_delete c key : remove_step c key = delete key c.
Proof.
  unfold remove_step. destruct (c !! key) eqn:Hkey; [done|].
  symmetry. by apply delete_id.
Qed.

Lemma removal_loop_lookup us c k :
  foldl remove_step c us !! k = if decide (k ∈ us) then None else c !! k.
Proof.
  revert c. induction us as [|key us IH]; intros c.
  { rewrite decide_False; [done|]. apply not_elem_of_nil. }
  cbn [foldl]. rewrite IH, remove_step_delete, lookup_delete.
  destruct (decide (k ∈ us)) as [Hin|Hout].
  - rewrite decide_True; [done|]. by right.
  - case_decide as Hkey.
    + subst. rewrite decide_True; [done|]. by left.
    + rewrite decide_False; [done|].
      intros [?|?]%elem_of_cons; congruence.
Qed.

(** Without obsolete keys the loop changes nothing. *)
Lemma removal_loop_fixed us c :
  (forall k, k ∈ us -> c !! k = None) -> foldl remove_step c us = c.
Proof.
  induction us as [|key us IH]; intros H; [done|].
  cbn [foldl]. unfold remove_step at 2.
  rewrite (H key) by (by left). apply IH.
  intros k Hk. apply H. by right.
Qed.

End removal_loop.

Section index_prefix.

Implicit Types (c : configuration).

(** The loop over the two index-prefix keys, unrolled. *)
Lemma index_prefix_pass_unfold c :
  index_prefix_pass c =
  match c !! params.RRNA_INDEX_PREFIX with
  | None => (c, Some (KeyError params.RRNA_INDEX_PREFIX))
  | Some (VStr rrna) =>
      let c1 := <[params.RRNA_INDEX_PREFIX := VStr (basename rrna)]> c in
      match c !! params.ORF_INDEX_PREFIX with
      | None => (c1, Some (KeyError params.ORF_INDEX_PREFIX))
      | Some (VStr orf) =>
          (<[params.ORF_INDEX_PREFIX := VStr (basename orf)]> c1, None)
      | Some v => (c1, Some (TypeError v))
      end
  | Some v => (c, Some (TypeError v))
  end.
Proof.
  unfold index_prefix_pass. cbn [index_prefix_loop].
  destruct (c !! params.RRNA_INDEX_PREFIX) as [[]|]; try reflexivity.
  cbn zeta. rewrite lookup_insert_ne by done.
  destruct (c !! params.ORF_INDEX_PREFIX) as [[]|]; reflexivity.
Qed.

End index_prefix.

(** ** The tables *)

Lemma RENAMES_legacy_apart : legacy_apart RENAMES.
Proof.
  assert (Forall (fun k => (k ∉ RENAMES.*2)) RENAMES.*1) as H by compute_done.
  intros k Hk. by eapply Forall_forall in H.
Qed.

Lemma defaults_table_NoDup : NoDup defaults_table.*1.
Proof. compute_done. Qed.

Lemma defaults_table_apart k :
  k ∈ defaults_table.*1 ->
  (k ∉ RENAMES.*1) ∧ (k ∉ index_prefix_keys) ∧ (k ∉ UNUSED).
Proof.
  assert (Forall (fun k => (k ∉ RENAMES.*1) ∧ (k ∉ index_prefix_keys)
                           ∧ (k ∉ UNUSED)) defaults_table.*1) as H
    by compute_done.
  intros Hk. by eapply Forall_forall in H.
Qed.

Lemma RENAMES_apart k :
  k ∈ RENAMES.*1 ->
  (k ∉ defaults_table.*1) ∧ (k ∉ index_prefix_keys) ∧ (k ∉ UNUSED).
Proof.
  assert (Forall (fun k => (k ∉ defaults_table.*1) ∧ (k ∉ index_prefix_keys)
                           ∧ (k ∉ UNUSED)) RENAMES.*1) as H
    by compute_done.
  intros Hk. by eapply Forall_forall in H.
Qed.

Lemma UNUSED_apart k :
  k ∈ UNUSED ->
  (k ∉ RENAMES.*1) ∧ (k ∉ RENAMES.*2) ∧ (k ∉ defaults_table.*1)
  ∧ (k ∉ index_prefix_keys).
Proof.
  assert (Forall (fun k => (k ∉ RENAMES.*1) ∧ (k ∉ RENAMES.*2)
                           ∧ (k ∉ defaults_table.*1)
                           ∧ (k ∉ index_prefix_keys)) UNUSED) as H
    by compute_done.
  intros Hk. by eapply Forall_forall in H.
Qed.

Lemma index_prefix_keys_apart k :
  k ∈ index_prefix_keys ->
  (k ∉ RENAMES.*1) ∧ (k ∉ defaults_table.*1) ∧ (k ∉ UNUSED).
Proof.
  assert (Forall (fun k => (k ∉ RENAMES.*1) ∧ (k ∉ defaults_table.*1)
                           ∧ (k ∉ UNUSED)) index_prefix_keys) as H
    by compute_done.
  intros Hk. by eapply Forall_forall in H.
Qed.

Lemma default_pass_fold (c : configuration) :
  default_pass c = foldl default_step c defaults_table.
Proof. unfold default_pass, defaults_table. by rewrite foldl_app. Qed.

(** ** [upgrade_config] as a whole *)

Section upgrade.

Open Scope list_scope.
Implicit Types (c : configuration) (k : string).

Lemma upgrade_config_unfold c :
  upgrade_config c =
  match prepared c !! params.RRNA_INDEX_PREFIX with
  | None => (prepared c, Some (KeyError params.RRNA_INDEX_PREFIX))
  | Some (VStr rrna) =>
      let c1 :=
        <[params.RRNA_INDEX_PREFIX := VStr (basename rrna)]> (prepared c) in
      match prepared c !! params.ORF_INDEX_PREFIX with
      | None => (c1, Some (KeyError params.ORF_INDEX_PREFIX))
      | Some (VStr orf) =>
          (removal_pass
             (<[params.ORF_INDEX_PREFIX := VStr (basename orf)]> c1), None)
      | Some v => (c1, Some (TypeError v))
      end
  | Some v => (prepared c, Some (TypeError v))
  end.
Proof.
  unfold upgrade_config, prepared.
  generalize (default_pass (rename_pass c)). intros d.
  rewrite index_prefix_pass_unfold.
  destruct (d !! params.RRNA_INDEX_PREFIX) as [[]|]; try reflexivity.
  destruct (d !! params.ORF_INDEX_PREFIX) as [[]|]; reflexivity.
Qed.

Lemma not_index_prefix_key k :
  k ∉ index_prefix_keys ->
  params.RRNA_INDEX_PREFIX ≠ k ∧ params.ORF_INDEX_PREFIX ≠ k.
Proof.
  intros H. split; intros <-; apply H; unfold index_prefix_keys.
  - by left.
  - right. by left.
Qed.

(** A call that returns went through both index-prefix keys and the
    removal loop. *)
Lemma upgrade_config_returns c :
  (upgrade_config c).2 = None ->
  exists rrna orf,
    prepared c !! params.RRNA_INDEX_PREFIX = Some (VStr rrna)
    ∧ prepared c !! params.ORF_INDEX_PREFIX = Some (VStr orf)
    ∧ (upgrade_config c).1
      = removal_pass
          (<[params.ORF_INDEX_PREFIX := VStr (basename orf)]>
             (<[params.RRNA_INDEX_PREFIX := VStr (basename rrna)]>
                (prepared c))).
Proof.
  rewrite upgrade_config_unfold. generalize (prepared c). intros d.
  destruct (d !! params.RRNA_INDEX_PREFIX) as [[| | |rrna| |]|];
    try (intros [=]; fail).
  destruct (d !! params.ORF_INDEX_PREFIX) as [[| | |orf| |]|];
    try (intros [=]; fail).
  intros _. by exists rrna, orf.
Qed.

(** Apart from the index prefixes and the obsolete keys, the call leaves
    what the rename and default loops made, whether or not it raises. *)
Lemma upgrade_config_lookup_other c k :
  k ∉ index_prefix_keys -> k ∉ UNUSED ->
  (upgrade_config c).1 !! k = prepared c !! k.
Proof.
  intros [H1 H2]%not_index_prefix_key Hu. rewrite upgrade_config_unfold.
  generalize (prepared c). intros d.
  destruct (d !! params.RRNA_INDEX_PREFIX) as [[]|]; try reflexivity.
  destruct (d !! params.ORF_INDEX_PREFIX) as [[]|]; cbn [fst];
    rewrite ?lookup_insert_ne by done; try reflexivity.
  unfold removal_pass. rewrite removal_loop_lookup.
  rewrite decide_False by done. by rewrite !lookup_insert_ne.
Qed.

Lemma prepared_lookup_other c k :
  k ∉ defaults_table.*1 -> prepared c !! k = rename_pass c !! k.
Proof.
  intros H. unfold prepared. rewrite default_pass_fold.
  by apply default_loop_other.
Qed.

Lemma prepared_legacy c k : k ∈ RENAMES.*1 -> prepared c !! k = None.
Proof.
  intros H. destruct (RENAMES_apart k H) as (Hd & _ & _).
  rewrite prepared_lookup_other by done.
  apply rename_loop_legacy; [|done]. by apply RENAMES_legacy_apart.
Qed.

Lemma prepared_default c k :
  k ∈ defaults_table.*1 -> is_Some (prepared c !! k).
Proof.
  intros H. unfold prepared. rewrite default_pass_fold.
  by apply default_loop_is_Some.
Qed.

(** What a raising call leaves under a key that is no index prefix: the
    removal loop has not run. *)
Lemma upgrade_config_lookup_raised c k :
  (upgrade_config c).2 ≠ None -> k ∉ index_prefix_keys ->
  (upgrade_config c).1 !! k = prepared c !! k.
Proof.
  intros Hraise [H1 H2]%not_index_prefix_key. revert Hraise.
  rewrite upgrade_config_unfold. generalize (prepared c). intros d.
  destruct (d !! params.RRNA_INDEX_PREFIX) as [[]|]; try reflexivity.
  destruct (d !! params.ORF_INDEX_PREFIX) as [[]|]; cbn [fst snd];
    rewrite ?lookup_insert_ne by done; try reflexivity.
  by intros [].
Qed.

Lemma prepared_lookup_untouched c k :
  k ∉ RENAMES.*1 -> k ∉ RENAMES.*2 -> k ∉ defaults_table.*1 ->
  prepared c !! k = c !! k.
Proof.
  intros Hl Hn Hd. rewrite prepared_lookup_other by done.
  by apply rename_loop_other.
Qed.

End upgrade.

(** ** C5: the obsolete keys *)

(** The removal loop is the last thing a returning call does. *)
Lemma upgrade_config_lookup_unused (c : configuration) (k : string) :
  (upgrade_config c).2 = None -> k ∈ UNUSED ->
  (upgrade_config c).1 !! k = None.
Proof.
  intros (rrna & orf & _ & _ & ->)%upgrade_config_returns Hk.
  unfold removal_pass. rewrite removal_loop_lookup. by rewrite decide_True.
Qed.

(** C5 (as amended). Whenever [upgrade_config] returns, every key of the
    obsolete-key set [UNUSED] (aligner, isTestRun, is_test_run, cmd_file,
    dir_logs) is absent from the mapping, whether or not the input held it.
    A call that raises, which it does in the index-prefix loop, has not
    reached the removal loop: it leaves under every obsolete key what the
    input held there. *)
Theorem obsolete_keys_removed (c : configuration) (k : string) :
  k ∈ UNUSED ->
  ((upgrade_config c).2 = None -> (upgrade_config c).1 !! k = None)
  ∧ ((upgrade_config c).2 ≠ None -> (upgrade_config c).1 !! k = c !! k).
Proof.
  intros Hk. split.
  - intros (rrna & orf & _ & _ & ->)%upgrade_config_returns.
    unfold removal_pass. rewrite removal_loop_lookup. by rewrite decide_True.
  - intros Hraise. destruct (UNUSED_apart k Hk) as (Hl & Hn & Hd & Hidx).
    rewrite upgrade_config_lookup_raised by done.
    by apply prepared_lookup_untouched.
Qed.

(** A configuration that has an obsolete key and no index prefix: the call
    raises before the removal loop and the obsolete key stays. *)
Lemma obsolete_keys_removed_counterexample :
  "aligner" ∈ UNUSED
  ∧ (upgrade_config obsolete_only_config).2
    = Some (KeyError params.RRNA_INDEX_PREFIX)
  ∧ (upgrade_config obsolete_only_config).1 !! "aligner"
    = Some (VStr "hisat2").
Proof.
  split; [in_table|]. split; vm_compute; reflexivity.
Qed.

Lemma obsolete_keys_removed_witness :
  (upgrade_config vignette_config).2 = None
  ∧ "aligner" ∈ UNUSED
  ∧ vignette_config !! "aligner" = Some (VStr "hisat2")
  ∧ (upgrade_config vignette_config).1 !! "aligner" = None.
Proof.
  assert ((upgrade_config vignette_config).2 = None) as Hrun
    by (vm_compute; reflexivity).
  assert ("aligner" ∈ UNUSED) as Hin by in_table.
  split; [exact Hrun|]. split; [exact Hin|].
  split; [vm_compute; reflexivity|].
  exact (proj1 (obsolete_keys_removed vignette_config "aligner" Hin) Hrun).
Defined.

(** ** C4: the defaults *)

(** C4. For every key of the defaults tables ([UPDATES] and the job
    configuration without the resume parameter): if the key is absent after
    the rename loop, the call leaves it with the default of the table; if it
    is present after the rename loop (also when a rename put it there), the
    default loops and the rest of the call leave its value as it is. *)
Theorem defaults_injected (c : configuration) (key : string) (d : value) :
  (key, d) ∈ defaults_table ->
  (rename_pass c !! key = None -> (upgrade_config c).1 !! key = Some d)
  ∧ (forall v, rename_pass c !! key = Some v ->
               default_pass (rename_pass c) !! key = Some v
               ∧ (upgrade_config c).1 !! key = Some v).
Proof.
  intros Hin.
  assert (key ∈ defaults_table.*1) as Hkey.
  { apply list_elem_of_fmap. by exists (key, d). }
  destruct (defaults_table_apart key Hkey) as (_ & Hidx & Hun).
  rewrite upgrade_config_lookup_other by done.
  unfold prepared. rewrite default_pass_fold. split.
  - intros Habsent. apply default_loop_injected; auto.
    apply defaults_table_NoDup.
  - intros v Hv. split; by apply default_loop_present.
Qed.

Lemma defaults_injected_witness :
  (params.COUNT_THRESHOLD, VInt 64) ∈ defaults_table
  ∧ rename_pass vignette_config !! params.COUNT_THRESHOLD = None
  ∧ (upgrade_config vignette_config).1 !! params.COUNT_THRESHOLD
    = Some (VInt 64).
Proof.
  assert ((params.COUNT_THRESHOLD, VInt 64) ∈ defaults_table) as Hin
    by in_table.
  assert (rename_pass vignette_config !! params.COUNT_THRESHOLD = None)
    as Habsent by (vm_compute; reflexivity).
  split; [exact Hin|]. split; [exact Habsent|].
  exact (proj1 (defaults_injected vignette_config params.COUNT_THRESHOLD
                  (VInt 64) Hin) Habsent).
Defined.

(** A legacy spelling that was present keeps its value under the current
    key: the default [False] of [stop_in_feature] does not replace it. *)
Example renamed_key_keeps_value :
  (upgrade_config (<["StopInCDS" := VBool true]> vignette_config)).1
    !! params.STOP_IN_FEATURE = Some (VBool true).
Proof. vm_compute. reflexivity. Qed.

(** ** C10: an index prefix that ends in a separator *)



(** ** C2: the renamed keys *)

Lemma RENAMES_NoDup : NoDup RENAMES.*1.
Proof. compute_done. Qed.

Lemma rename_pass_moved (c : configuration) (i : nat)
    (old_key new_key : string) (v : value) :
  RENAMES !! i = Some (old_key, new_key) ->
  Forall (fun o => c !! o = None) (later_sources i new_key) ->
  c !! old_key = Some v ->
  rename_pass c !! new_key = Some v.
Proof.
  intros Hi Hsrc Hv. unfold rename_pass.
  pose proof (take_drop_middle RENAMES i _ Hi) as Hsplit.
  rewrite <- Hsplit. apply rename_loop_moved; [| | |done].
  - rewrite Hsplit. apply RENAMES_legacy_apart.
  - pose proof RENAMES_NoDup as Hnd. rewrite <- Hsplit in Hnd.
    rewrite fmap_app in Hnd. apply NoDup_app in Hnd as (_ & Hnd & _).
    intros Hin. apply (Hnd old_key Hin). cbn. by left.
  - intros o Ho. rewrite Forall_forall in Hsrc. apply Hsrc.
    unfold later_sources. apply list_elem_of_fmap.
    exists (o, new_key). split; [done|]. by apply list_elem_of_filter.
Qed.

(** The rename loop moves the value of a present legacy key to its current
    key; for [StopInCDS] that needs [stop_in_cds], which the table renames
    to the same key later, to be absent. *)
Lemma rename_pass_target (c : configuration) (old_key new_key : string)
    (v : value) :
  (old_key, new_key) ∈ RENAMES ->
  c !! old_key = Some v ->
  (old_key = "StopInCDS" -> c !! "stop_in_cds" = None) ->
  rename_pass c !! new_key = Some v.
Proof.
  intros [i Hi]%list_elem_of_lookup Hv Hstop.
  apply (rename_pass_moved c i old_key new_key v Hi); [|done].
  assert (i < 16)%nat as Hlt by (by apply lookup_lt_Some in Hi).
  do 16 (destruct i as [|i];
         [ injection Hi as <- <-;
           match goal with
           | |- Forall _ ?l =>
               let l' := eval vm_compute in l in change l with l'
           end;
           repeat constructor; by apply Hstop
         | ]).
  lia.
Qed.

(** C2 (as amended). For every entry of [RENAMES] whose legacy key is present
    in the input, the call leaves the legacy key absent. The current key
    holds the value the legacy key had, with two provisos: for the two
    index-prefix keys, when the call returns, the value was a string and the
    key holds its last path segment; and for [StopInCDS] the statement is for
    inputs without [stop_in_cds]. *)
Theorem legacy_keys_renamed (c : configuration) (old_key new_key : string)
    (v : value) :
  (old_key, new_key) ∈ RENAMES ->
  c !! old_key = Some v ->
  (upgrade_config c).1 !! old_key = None
  ∧ (new_key ∉ index_prefix_keys ->
     (old_key = "StopInCDS" -> c !! "stop_in_cds" = None) ->
     (upgrade_config c).1 !! new_key = Some v)
  ∧ (new_key ∈ index_prefix_keys ->
     (upgrade_config c).2 = None ->
     exists path, v = VStr path
       ∧ (upgrade_config c).1 !! new_key = Some (VStr (basename path))).
Proof.
  intros Hin Hv.
  assert (old_key ∈ RENAMES.*1) as Hold.
  { apply list_elem_of_fmap. by exists (old_key, new_key). }
  assert (new_key ∈ RENAMES.*2) as Hnew.
  { apply list_elem_of_fmap. by exists (old_key, new_key). }
  destruct (RENAMES_apart old_key Hold) as (_ & Hidx & Hun).
  split; [|split].
  - rewrite upgrade_config_lookup_other by done. by apply prepared_legacy.
  - intros Hnidx Hstop.
    assert (new_key ∉ UNUSED) as Hnun.
    { intros H. by destruct (UNUSED_apart new_key H) as (_ & ? & _). }
    rewrite upgrade_config_lookup_other by done.
    unfold prepared. rewrite default_pass_fold.
    apply default_loop_present. by eapply rename_pass_target.
  - intros Hkey Hret.
    assert (old_key ≠ "StopInCDS") as Hne.
    { intros ->.
      assert (Forall (fun e => e.1 = "StopInCDS" -> e.2 ∉ index_prefix_keys)
                RENAMES) as H by compute_done.
      rewrite Forall_forall in H. by apply (H _ Hin). }
    assert (rename_pass c !! new_key = Some v) as Hren
      by (by eapply rename_pass_target).
    destruct (index_prefix_keys_apart new_key Hkey) as (_ & Hnd & Hnun).
    assert (prepared c !! new_key = Some v) as Hprep
      by (by rewrite prepared_lookup_other).
    apply upgrade_config_returns in Hret as (rrna & orf & Hr & Ho & ->).
    unfold removal_pass. rewrite removal_loop_lookup.
    rewrite decide_False by done.
    unfold index_prefix_keys in Hkey.
    apply elem_of_cons in Hkey as [->|Hkey].
    + rewrite lookup_insert_ne by done. rewrite lookup_insert_eq.
      rewrite Hr in Hprep. injection Hprep as <-. by exists rrna.
    + apply elem_of_cons in Hkey as [->|Hkey];
        [|by apply elem_of_nil in Hkey].
      rewrite lookup_insert_eq.
      rewrite Ho in Hprep. injection Hprep as <-. by exists orf.
Qed.

Lemma legacy_keys_renamed_witness :
  ("orf_index", params.ORF_INDEX_PREFIX) ∈ RENAMES
  ∧ vignette_config !! "orf_index" = Some (VStr "vignette/index/YAL_CDS_w_250")
  ∧ (upgrade_config vignette_config).1 !! "orf_index" = None.
Proof.
  assert (("orf_index", params.ORF_INDEX_PREFIX) ∈ RENAMES) as Hin
    by in_table.
  assert (vignette_config !! "orf_index"
          = Some (VStr "vignette/index/YAL_CDS_w_250")) as Hv
    by (vm_compute; reflexivity).
  split; [exact Hin|]. split; [exact Hv|].
  exact (proj1 (legacy_keys_renamed vignette_config "orf_index"
                  params.ORF_INDEX_PREFIX _ Hin Hv)).
Defined.

(** The legacy key [orf_index] holds a path with a directory; after the
    upgrade the current key holds the file name only, not the value the
    legacy key had. *)
Lemma legacy_keys_renamed_counterexample :
  ("orf_index", params.ORF_INDEX_PREFIX) ∈ RENAMES
  ∧ vignette_config !! "orf_index" = Some (VStr "vignette/index/YAL_CDS_w_250")
  ∧ (upgrade_config vignette_config).2 = None
  ∧ (upgrade_config vignette_config).1 !! params.ORF_INDEX_PREFIX
    = Some (VStr "YAL_CDS_w_250")
  ∧ (upgrade_config vignette_config).1 !! params.ORF_INDEX_PREFIX
    ≠ vignette_config !! "orf_index".
Proof.
  split; [in_table|]. repeat split; try (vm_compute; reflexivity).
  vm_compute. intros [=].
Qed.

(** With both legacy spellings of the stop-in-feature flag present, the
    later entry of the table wins. *)
Example both_stop_spellings :
  let c := <["StopInCDS" := VBool true]>
           (<["stop_in_cds" := VBool false]> vignette_config) in
  (upgrade_config c).1 !! params.STOP_IN_FEATURE = Some (VBool false).
Proof. vm_compute. reflexivity. Qed.

(** ** C1: idempotence *)

Section idempotence.

Open Scope list_scope.
Implicit Types (c : configuration) (k : string).

Lemma prepared_settled c : settled (prepared c).
Proof.
  split; [apply prepared_legacy | apply prepared_default].
Qed.

Lemma settled_prepared c : settled c -> prepared c = c.
Proof.
  intros [Hl Hd]. unfold prepared, rename_pass.
  rewrite rename_loop_fixed by done.
  rewrite default_pass_fold. by apply default_loop_fixed.
Qed.

Lemma settled_insert c k v :
  k ∈ index_prefix_keys -> settled c -> settled (<[k := v]> c).
Proof.
  intros Hk [Hl Hd].
  destruct (index_prefix_keys_apart k Hk) as (Hnl & Hnd & _). split.
  - intros k' Hk'. rewrite lookup_insert_ne by congruence. auto.
  - intros k' Hk'. rewrite lookup_insert_ne by congruence. auto.
Qed.

Lemma settled_removal_pass c : settled c -> settled (removal_pass c).
Proof.
  intros [Hl Hd]. unfold removal_pass. split.
  - intros k Hk. rewrite removal_loop_lookup. case_decide; auto.
  - intros k Hk. rewrite removal_loop_lookup.
    destruct (defaults_table_apart k Hk) as (_ & _ & Hun).
    rewrite decide_False by done. auto.
Qed.

Lemma rrna_is_index_prefix_key : params.RRNA_INDEX_PREFIX ∈ index_prefix_keys.
Proof. by left. Qed.

Lemma orf_is_index_prefix_key : params.ORF_INDEX_PREFIX ∈ index_prefix_keys.
Proof. right. by left. Qed.

(** The index-prefix loop run on what it left behaves as it did. *)
Lemma index_prefix_pass_idemp c :
  index_prefix_pass (index_prefix_pass c).1 = index_prefix_pass c.
Proof.
  rewrite (index_prefix_pass_unfold c).
  destruct (c !! params.RRNA_INDEX_PREFIX) as [[| | |rrna| |]|] eqn:Hr;
    cbn [fst]; try (rewrite index_prefix_pass_unfold, Hr; reflexivity).
  cbn zeta.
  destruct (c !! params.ORF_INDEX_PREFIX) as [[| | |orf| |]|] eqn:Ho;
    cbn [fst]; rewrite index_prefix_pass_unfold;
    rewrite ?lookup_insert_eq, ?(lookup_insert_ne _ params.ORF_INDEX_PREFIX
                params.RRNA_INDEX_PREFIX) by done;
    rewrite ?lookup_insert_eq,
      ?(lookup_insert_ne _ params.RRNA_INDEX_PREFIX
          params.ORF_INDEX_PREFIX) by done;
    rewrite ?Ho; cbn zeta; rewrite ?basename_idemp.
  all: rewrite ?(insert_id (<[params.RRNA_INDEX_PREFIX:=_]> c)
                   params.RRNA_INDEX_PREFIX)
         by apply lookup_insert_eq; try reflexivity.
  f_equal.
  rewrite (insert_id _ params.RRNA_INDEX_PREFIX (VStr (basename rrna))).
  - apply insert_id. apply lookup_insert_eq.
  - rewrite lookup_insert_ne by done. apply lookup_insert_eq.
Qed.

End idempotence.

Section idempotence_of_upgrade.

Open Scope list_scope.
Implicit Types (c d : configuration) (k : string).

Lemma removal_pass_idemp c : removal_pass (removal_pass c) = removal_pass c.
Proof.
  unfold removal_pass at 1. apply removal_loop_fixed.
  intros k Hk. unfold removal_pass. rewrite removal_loop_lookup.
  by rewrite decide_True.
Qed.

Lemma removal_pass_lookup_index c k :
  k ∈ index_prefix_keys -> removal_pass c !! k = c !! k.
Proof.
  intros Hk. destruct (index_prefix_keys_apart k Hk) as (_ & _ & Hun).
  unfold removal_pass. rewrite removal_loop_lookup.
  by rewrite decide_False.
Qed.

(** On a configuration that the rename and default loops leave alone,
    [upgrade_config] is the index-prefix loop and the removal loop. *)
Lemma upgrade_config_settled d :
  settled d ->
  upgrade_config d =
  match d !! params.RRNA_INDEX_PREFIX with
  | None => (d, Some (KeyError params.RRNA_INDEX_PREFIX))
  | Some (VStr rrna) =>
      let c1 := <[params.RRNA_INDEX_PREFIX := VStr (basename rrna)]> d in
      match d !! params.ORF_INDEX_PREFIX with
      | None => (c1, Some (KeyError params.ORF_INDEX_PREFIX))
      | Some (VStr orf) =>
          (removal_pass
             (<[params.ORF_INDEX_PREFIX := VStr (basename orf)]> c1), None)
      | Some v => (c1, Some (TypeError v))
      end
  | Some v => (d, Some (TypeError v))
  end.
Proof.
  intros Hs. rewrite upgrade_config_unfold.
  by rewrite (settled_prepared d Hs).
Qed.

Lemma upgrade_config_idemp_settled d :
  settled d -> 
  forall r, r = match d !! params.RRNA_INDEX_PREFIX with
  | None => (d, Some (KeyError params.RRNA_INDEX_PREFIX))
  | Some (VStr rrna) =>
      let c1 := <[params.RRNA_INDEX_PREFIX := VStr (basename rrna)]> d in
      match d !! params.ORF_INDEX_PREFIX with
      | None => (c1, Some (KeyError params.ORF_INDEX_PREFIX))
      | Some (VStr orf) =>
          (removal_pass
             (<[params.ORF_INDEX_PREFIX := VStr (basename orf)]> c1), None)
      | Some v => (c1, Some (TypeError v))
      end
  | Some v => (d, Some (TypeError v))
  end ->
  upgrade_config r.1 = r.
Proof.
  intros Hs r ->.
  pose proof rrna_is_index_prefix_key as HR.
  pose proof orf_is_index_prefix_key as HO.
  destruct (d !! params.RRNA_INDEX_PREFIX) as [[| | |rrna| |]|] eqn:Hr;
    cbn [fst];
    try (rewrite (upgrade_config_settled d Hs), Hr; reflexivity).
  cbn zeta.
  set (c1 := <[params.RRNA_INDEX_PREFIX := VStr (basename rrna)]> d).
  assert (settled c1) as Hs1 by (by apply settled_insert).
  assert (c1 !! params.RRNA_INDEX_PREFIX = Some (VStr (basename rrna)))
    as Hr1 by apply lookup_insert_eq.
  assert (c1 !! params.ORF_INDEX_PREFIX = d !! params.ORF_INDEX_PREFIX)
    as Ho1 by (by apply lookup_insert_ne).
  assert (<[params.RRNA_INDEX_PREFIX := VStr (basename (basename rrna))]> c1
          = c1) as Hid1.
  { rewrite basename_idemp. by apply insert_id. }
  destruct (d !! params.ORF_INDEX_PREFIX) as [[| | |orf| |]|] eqn:Ho;
    cbn [fst];
    try (rewrite (upgrade_config_settled c1 Hs1), Hr1, Ho1; cbn zeta;
         rewrite Hid1; reflexivity).
  set (c2 := <[params.ORF_INDEX_PREFIX := VStr (basename orf)]> c1).
  assert (settled (removal_pass c2)) as Hs2.
  { apply settled_removal_pass. by apply settled_insert. }
  assert (c2 !! params.RRNA_INDEX_PREFIX = Some (VStr (basename rrna)))
    as Hr2 by (unfold c2; by rewrite lookup_insert_ne).
  assert (c2 !! params.ORF_INDEX_PREFIX = Some (VStr (basename orf)))
    as Ho2 by apply lookup_insert_eq.
  rewrite (upgrade_config_settled _ Hs2).
  rewrite !removal_pass_lookup_index by done.
  rewrite Hr2, Ho2. cbn zeta. rewrite !basename_idemp.
  f_equal.
  rewrite (insert_id (removal_pass c2) params.RRNA_INDEX_PREFIX).
  - rewrite insert_id; [apply removal_pass_idemp|].
    by rewrite removal_pass_lookup_index.
  - by rewrite removal_pass_lookup_index.
Qed.

End idempotence_of_upgrade.

(** C1. Applying [upgrade_config] to the mapping that a first application
    left gives that same mapping and ends the same way, so a second
    application changes nothing; the same holds for the index-prefix loop
    alone, and the last segment of a name without a separator is the name
    itself. *)
Theorem upgrade_config_idempotent (c : configuration) :
  upgrade_config (upgrade_config c).1 = upgrade_config c
  ∧ index_prefix_pass (index_prefix_pass c).1 = index_prefix_pass c
  ∧ (forall name, rfind_sep name = None -> (path_split name).2 = name).
Proof.
  split; [|split].
  - apply upgrade_config_idemp_settled with (d := prepared c).
    + apply prepared_settled.
    + apply upgrade_config_unfold.
  - apply index_prefix_pass_idemp.
  - intros name Hname. rewrite path_split_tail. by apply basename_no_sep.
Qed.

Lemma upgrade_config_idempotent_witness :
  upgrade_config (upgrade_config vignette_config).1
  = upgrade_config vignette_config
  ∧ (path_split "yeast_rRNA").2 = "yeast_rRNA".
Proof.
  destruct (upgrade_config_idempotent vignette_config) as (Htwice & _ & Hbare).
  split; [exact Htwice|]. apply Hbare. reflexivity.
Defined.

Example upgrade_twice_vignette :
  (upgrade_config (upgrade_config vignette_config).1).1
    !! params.RRNA_INDEX_PREFIX = Some (VStr "yeast_rRNA").
Proof. vm_compute. reflexivity. Qed.

(** ** C3: when the upgrade raises *)

Lemma prepared_index_source (c : configuration)
    (legacy_key current_key : string) :
  (legacy_key, current_key) ∈ RENAMES ->
  current_key ∈ index_prefix_keys ->
  prepared c !! current_key = index_source legacy_key current_key c.
Proof.
  intros Hin Hkey.
  destruct (index_prefix_keys_apart current_key Hkey) as (Hnl & Hnd & _).
  rewrite prepared_lookup_other by done. unfold index_source.
  assert (Forall (fun e => e.2 ∈ index_prefix_keys -> e.1 ≠ "StopInCDS")
            RENAMES) as Hstop by compute_done.
  assert (Forall (fun e => Forall (fun e' => e.2 ∈ index_prefix_keys ->
                                             e'.2 = e.2 -> e'.1 = e.1)
                             RENAMES) RENAMES) as Huniq by compute_done.
  rewrite Forall_forall in Hstop. rewrite Forall_forall in Huniq.
  destruct (c !! legacy_key) as [v|] eqn:Hv.
  - eapply rename_pass_target; [done..|].
    intros ->. by destruct (Hstop _ Hin Hkey).
  - unfold rename_pass. apply rename_loop_kept;
      [apply RENAMES_legacy_apart|done|].
    intros o Ho. specialize (Huniq _ Hin). rewrite Forall_forall in Huniq.
    specialize (Huniq _ Ho Hkey eq_refl). cbn in Huniq. by subst.
Qed.



(** A null index prefix, as YAML gives for [rrna_index_prefix:] with no
    value, raises [TypeError] in the transform. *)
Example null_index_prefix :
  (upgrade_config (<[params.RRNA_INDEX_PREFIX := VNone]> ∅)).2
  = Some (TypeError VNone).
Proof. vm_compute. reflexivity. Qed.


(** ** C6: what an upgraded configuration holds *)

(** C6 (as amended). When [upgrade_config] returns, every key of the
    defaults tables is present, each index prefix is a string without a
    directory, and no legacy key of [RENAMES] and no key of [UNUSED]
    remains. A key that none of the tables names is kept with its value, and
    a value that was present under a key with a default is kept whatever
    its type is. *)
Theorem upgraded_configuration (c : configuration) :
  (upgrade_config c).2 = None ->
  (forall k, k ∈ defaults_table.*1 -> is_Some ((upgrade_config c).1 !! k))
  ∧ (forall k, k ∈ index_prefix_keys ->
       exists name, (upgrade_config c).1 !! k = Some (VStr name)
                    ∧ rfind_sep name = None)
  ∧ (forall k, k ∈ RENAMES.*1 ∨ k ∈ UNUSED ->
               (upgrade_config c).1 !! k = None)
  ∧ (forall k, k ∉ RENAMES.*1 -> k ∉ RENAMES.*2 -> k ∉ defaults_table.*1 ->
               k ∉ UNUSED -> (upgrade_config c).1 !! k = c !! k)
  ∧ (forall k v, k ∈ defaults_table.*1 -> rename_pass c !! k = Some v ->
                 (upgrade_config c).1 !! k = Some v).
Proof.
  intros Hret. split; [|split; [|split; [|split]]].
  - intros k Hk. destruct (defaults_table_apart k Hk) as (_ & Hidx & Hun).
    rewrite upgrade_config_lookup_other by done. by apply prepared_default.
  - intros k Hk.
    apply upgrade_config_returns in Hret as (rrna & orf & Hr & Ho & ->).
    rewrite removal_pass_lookup_index by done.
    unfold index_prefix_keys in Hk. apply elem_of_cons in Hk as [->|Hk].
    + exists (basename rrna). rewrite lookup_insert_ne by done.
      rewrite lookup_insert_eq. split; [done|apply rfind_sep_basename].
    + apply elem_of_cons in Hk as [->|Hk]; [|by apply elem_of_nil in Hk].
      exists (basename orf). rewrite lookup_insert_eq.
      split; [done|apply rfind_sep_basename].
  - intros k [Hk|Hk].
    + destruct (RENAMES_apart k Hk) as (_ & Hidx & Hun).
      rewrite upgrade_config_lookup_other by done. by apply prepared_legacy.
    + by apply upgrade_config_lookup_unused.
  - intros k Hl Hn Hd Hun.
    assert (k ∉ index_prefix_keys) as Hidx.
    { assert (Forall (fun k => k ∈ RENAMES.*2) index_prefix_keys) as H
        by compute_done.
      rewrite Forall_forall in H. intros Hk. by apply Hn, H. }
    rewrite upgrade_config_lookup_other by done.
    rewrite prepared_lookup_other by done.
    by apply rename_loop_other.
  - intros k v Hk Hv.
    destruct (defaults_table_apart k Hk) as (_ & Hidx & Hun).
    rewrite upgrade_config_lookup_other by done.
    unfold prepared. rewrite default_pass_fold.
    by apply default_loop_present.
Qed.

(** The unknown key persists, and so does the ill-typed value. *)
Lemma upgraded_configuration_counterexample :
  (upgrade_config stray_config).2 = None
  ∧ (upgrade_config stray_config).1 !! "no_such_parameter" = Some (VInt 1)
  ∧ (upgrade_config stray_config).1 !! params.COUNT_THRESHOLD
    = Some (VStr "many").
Proof. repeat split; vm_compute; reflexivity. Qed.

Lemma upgraded_configuration_witness :
  (upgrade_config stray_config).2 = None
  ∧ (upgrade_config stray_config).1 !! "aligner" = None
  ∧ (upgrade_config stray_config).1 !! "no_such_parameter"
    = stray_config !! "no_such_parameter".
Proof.
  assert ((upgrade_config stray_config).2 = None) as Hret
    by (vm_compute; reflexivity).
  destruct (upgraded_configuration stray_config Hret)
    as (_ & _ & Hgone & Hkept & _).
  split; [exact Hret|]. split.
  - apply Hgone. right. in_table.
  - apply Hkept; compute_done.
Defined.

(** ** C7: the path resolver *)

Section path_lemmas.

Implicit Types (p pre seg : string) (comps : list string).

Lemma append_assoc p q r : (p ++ q) ++ r = p ++ (q ++ r).
Proof.
  induction p as [|a p IH]; [reflexivity|].
  rewrite !append_cons. by rewrite IH.
Qed.

Lemma append_nil_r p : p ++ "" = p.
Proof.
  induction p as [|a p IH]; [reflexivity|]. rewrite append_cons.
  by rewrite IH.
Qed.

Lemma append_eq_nil p q : p ++ q = "" -> q = "".
Proof. destruct p; [done|]. rewrite append_cons. discriminate. Qed.

Lemma basename_after_dir pre seg :
  ends_dir pre -> rfind_sep seg = None -> basename (pre ++ seg) = seg.
Proof.
  intros [->|[pre' ->]] Hseg.
  - rewrite append_nil_l. by apply basename_no_sep.
  - rewrite append_assoc. by apply basename_app_segment.
Qed.

Lemma ends_dir_seps n pre : ends_dir pre -> ends_dir (seps n ++ pre).
Proof.
  intros [->|[pre' ->]].
  - rewrite append_nil_r. destruct n as [|n]; [by left|]. right.
    exists (seps n). induction n as [|n IH]; [reflexivity|].
    cbn [seps] in *. rewrite append_cons. by rewrite <- IH.
  - right. exists (seps n ++ pre'). by rewrite append_assoc.
Qed.

Lemma split_sep_not_nil p : split_sep p ≠ [].
Proof.
  destruct p as [|a p]; [done|]. cbn [split_sep].
  destruct (is_sep a); [done|]. by destruct (split_sep p).
Qed.

Lemma split_sep_no_sep p : rfind_sep p = None -> split_sep p = [p].
Proof.
  induction p as [|a p IH]; [done|]. cbn [rfind_sep split_sep].
  destruct (rfind_sep p) as [i|]; [discriminate|].
  destruct (is_sep a); [discriminate|]. intros _. by rewrite IH.
Qed.

(** Splitting distributes over a separator. *)
Lemma split_sep_app p q :
  split_sep (p ++ String sep q) = (split_sep p ++ split_sep q)%list.
Proof.
  induction p as [|a p IH].
  - rewrite append_nil_l. reflexivity.
  - rewrite append_cons. cbn [split_sep]. rewrite IH.
    destruct (is_sep a); [reflexivity|].
    pose proof (split_sep_not_nil p) as Hne.
    by destruct (split_sep p).
Qed.

Lemma split_sep_seps n : split_sep (seps n) = repeat "" (S n).
Proof.
  induction n as [|n IH]; [reflexivity|].
  cbn [seps split_sep]. rewrite IH. reflexivity.
Qed.

Lemma split_sep_trailing seg n :
  rfind_sep seg = None ->
  split_sep (seg ++ seps n) = seg :: repeat "" n.
Proof.
  intros Hseg. destruct n as [|n].
  - rewrite append_nil_r. by apply split_sep_no_sep.
  - cbn [seps]. rewrite split_sep_app, split_sep_seps.
    by rewrite split_sep_no_sep.
Qed.

(** The components of a path that ends with a proper segment and
    separators. *)
Lemma split_sep_last pre seg n :
  ends_dir pre -> rfind_sep seg = None ->
  exists comps,
    split_sep (pre ++ seg ++ seps n) = (comps ++ seg :: repeat "" n)%list.
Proof.
  intros [->|[pre' ->]] Hseg.
  - exists []. rewrite append_nil_l. by apply split_sep_trailing.
  - exists (split_sep pre'). rewrite append_assoc.
    change ("/" ++ (seg ++ seps n)) with (String sep (seg ++ seps n)).
    rewrite split_sep_app. by rewrite split_sep_trailing.
Qed.

Lemma normpath_step_segment k comps seg :
  is_segment seg ->
  normpath_step k comps seg = (comps ++ [seg])%list.
Proof.
  intros (Hne & _ & Hdot & Hdots). unfold normpath_step.
  apply String.eqb_neq in Hne, Hdot, Hdots.
  by rewrite Hne, Hdot, Hdots.
Qed.

Lemma normpath_loop_empty k comps n :
  foldl (normpath_step k) comps (repeat "" n) = comps.
Proof. induction n as [|n IH]; [done|]. exact IH. Qed.

(** The last component that the loop of [normpath] keeps. *)
Lemma normpath_loop_last k comps seg n :
  is_segment seg ->
  exists kept, foldl (normpath_step k) [] (comps ++ seg :: repeat "" n)
               = (kept ++ [seg])%list.
Proof.
  intros Hseg. exists (foldl (normpath_step k) [] comps).
  rewrite foldl_app. cbn [foldl]. rewrite normpath_step_segment by done.
  apply normpath_loop_empty.
Qed.

Lemma concat_last comps seg :
  exists pre, ends_dir pre ∧ String.concat "/" (comps ++ [seg]) = pre ++ seg.
Proof.
  induction comps as [|x comps (pre & Hpre & IH)].
  - exists "". split; [by left|reflexivity].
  - exists (x ++ "/" ++ pre). split.
    + destruct Hpre as [->|[pre' ->]]; right.
      * exists x. by rewrite append_nil_r.
      * exists (x ++ "/" ++ pre'). by rewrite !append_assoc.
    + change ((x :: comps) ++ [seg])%list with (x :: (comps ++ [seg]))%list.
      cbn [String.concat]. rewrite IH.
      destruct (comps ++ [seg])%list eqn:Hnil.
      { by destruct comps. }
      by rewrite !append_assoc.
Qed.

(** [normpath] takes the trailing separators away, so that the last
    segment is what [basename] finds. *)
Lemma basename_normpath pre seg n :
  ends_dir pre -> is_segment seg ->
  basename (normpath (pre ++ seg ++ seps n)) = seg.
Proof.
  intros Hpre Hseg. pose proof Hseg as (Hne & Hnosep & _).
  unfold normpath.
  destruct (String.eqb_spec (pre ++ seg ++ seps n) "") as [Hnil|_].
  { apply append_eq_nil in Hnil.
    destruct seg; [done|]. by rewrite append_cons in Hnil. }
  destruct (split_sep_last pre seg n Hpre Hnosep) as [comps ->].
  set (k := if String.prefix "/" _ then _ else 0).
  destruct (normpath_loop_last k comps seg n Hseg) as [kept ->].
  destruct (concat_last kept seg) as (pre2 & Hpre2 & ->).
  assert (exists pre3, ends_dir pre3
            ∧ (if Nat.eqb k 0 then pre2 ++ seg
               else seps k ++ pre2 ++ seg) = pre3 ++ seg)
    as (pre3 & Hpre3 & ->).
  { destruct (Nat.eqb k 0).
    - by exists pre2.
    - exists (seps k ++ pre2). split; [by apply ends_dir_seps|].
      by rewrite append_assoc. }
  destruct (String.eqb_spec (pre3 ++ seg) "") as [Hnil|_].
  { by apply append_eq_nil in Hnil. }
  by apply basename_after_dir.
Qed.

End path_lemmas.

(** C7. For an actual directory path that ends with a directory name and
    any number of trailing separators, the path resolver gives the join of
    the expected root, that directory name and the rest of the file's path;
    for [a/b/vignette/index/] under [/x/y] that is [/x/y/index]. *)
Theorem expected_path_last_segment (expected_fixture pre seg : string)
    (n : nat) (rest : list string) :
  ends_dir pre -> is_segment seg ->
  expected_path expected_fixture (pre ++ seg ++ seps n) rest
  = path_join expected_fixture (seg :: rest)
  ∧ expected_path "/x/y" "a/b/vignette/index/" [] = "/x/y/index".
Proof.
  intros Hpre Hseg. split; [|reflexivity].
  unfold expected_path. by rewrite basename_normpath.
Qed.

Lemma expected_path_last_segment_witness :
  ends_dir "a/b/vignette/" ∧ is_segment "index"
  ∧ expected_path "/x/y" ("a/b/vignette/" ++ "index" ++ seps 1) ["f.ht2"]
    = "/x/y/index/f.ht2".
Proof.
  assert (ends_dir "a/b/vignette/") as Hpre.
  { right. by exists "a/b/vignette". }
  assert (is_segment "index") as Hseg by (by repeat split).
  split; [exact Hpre|]. split; [exact Hseg|].
  exact (proj1 (expected_path_last_segment "/x/y" "a/b/vignette/" "index" 1
                  ["f.ht2"] Hpre Hseg)).
Defined.

(** ** C9: the output BAM file of a run with deduplication *)

Section view_sort_index.

Variables BAM_FORMAT BAI_FORMAT : string -> string.
Variable w : world.
Variables (expected_fixture dir_out sample : string).

Let file_name := BAM_FORMAT sample.
Let bai_file_name := BAI_FORMAT file_name.
Let expected_file :=
  expected_path expected_fixture dir_out [sample; file_name].
Let actual_file := path_join dir_out [sample; file_name].
Let actual_bai_file := path_join dir_out [sample; bai_file_name].

(** What the integration check does when deduplication was configured. *)
Lemma integration_view_sort_index_dedup :
  run (integration.test_samtools_view_sort_index BAM_FORMAT BAI_FORMAT
         true expected_fixture dir_out sample) w
  = if negb (path_exists w expected_file)
    then ([Exists expected_file],
          Skipped "Skipped as expected file does not exist")
    else if negb (path_exists w actual_file)
    then ([Exists expected_file; Exists actual_file],
          Failed ("Non-existent file: " ++ actual_file))
    else if negb (path_exists w actual_bai_file)
    then ([Exists expected_file; Exists actual_file;
           Exists actual_bai_file],
          Failed ("Non-existent file: " ++ actual_bai_file))
    else ([Exists expected_file; Exists actual_file;
           Exists actual_bai_file], Passed).
Proof.
  unfold integration.test_samtools_view_sort_index. unfold_check.
  fold file_name. fold bai_file_name. fold expected_file.
  fold actual_file. fold actual_bai_file.
  destruct (path_exists w expected_file); [|reflexivity].
  destruct (path_exists w actual_file); [|reflexivity].
  destruct (path_exists w actual_bai_file); reflexivity.
Qed.

(** The regression check does the same, with assertions that carry no
    message. *)
Lemma regression_view_sort_index_dedup :
  run (regression.test_samtools_view_sort_index BAM_FORMAT BAI_FORMAT
         true expected_fixture dir_out sample) w
  = if negb (path_exists w expected_file)
    then ([Exists expected_file],
          Skipped "Skipped as expected file does not exist")
    else if negb (path_exists w actual_file)
    then ([Exists expected_file; Exists actual_file], Failed "")
    else if negb (path_exists w actual_bai_file)
    then ([Exists expected_file; Exists actual_file;
           Exists actual_bai_file], Failed "")
    else ([Exists expected_file; Exists actual_file;
           Exists actual_bai_file], Passed).
Proof.
  unfold regression.test_samtools_view_sort_index. unfold_check.
  fold file_name. fold bai_file_name. fold expected_file.
  fold actual_file. fold actual_bai_file.
  destruct (path_exists w expected_file); [|reflexivity].
  destruct (path_exists w actual_file); [|reflexivity].
  destruct (path_exists w actual_bai_file); reflexivity.
Qed.

(** Without deduplication, and with all three files in place, both files
    are compared. *)
Lemma integration_view_sort_index_compares :
  path_exists w expected_file = true ->
  path_exists w actual_file = true ->
  path_exists w actual_bai_file = true ->
  was_compared
    (run (integration.test_samtools_view_sort_index BAM_FORMAT BAI_FORMAT
            false expected_fixture dir_out sample) w).1 = true.
Proof.
  intros He Ha Hb.
  unfold integration.test_samtools_view_sort_index. unfold_check.
  fold file_name. fold bai_file_name. fold expected_file.
  fold actual_file. fold actual_bai_file. rewrite He, Ha, Hb.
  destruct (differ w equal_bam expected_file actual_file);
    [reflexivity|].
  by destruct (differ w equal_file_sizes _ actual_bai_file).
Qed.

(** C9. In both suites, with [dedup_umis] true the check of the sample's
    output BAM file never calls a comparator; it passes only if the BAM
    file and its BAI file exist on the actual side and, once the expected
    BAM file is there (the check is skipped otherwise), it passes exactly
    when both exist and fails with the assertion otherwise. A run of the
    check that called a comparator had [dedup_umis] false. *)
Theorem dedup_bam_existence_only (dedup_umis : bool)
    (r : list event * verdict) :
  r ∈ view_sort_index_runs BAM_FORMAT BAI_FORMAT w expected_fixture dir_out
        sample dedup_umis ->
  (dedup_umis = true -> was_compared r.1 = false)
  ∧ (dedup_umis = true -> r.2 = Passed ->
     path_exists w actual_file = true
     ∧ path_exists w actual_bai_file = true)
  ∧ (dedup_umis = true -> path_exists w expected_file = true ->
     (r.2 = Passed <->
      path_exists w actual_file = true
      ∧ path_exists w actual_bai_file = true)
     ∧ (r.2 = Passed ∨ exists message, r.2 = Failed message))
  ∧ (was_compared r.1 = true -> dedup_umis = false).
Proof.
  intros Hr.
  assert (dedup_umis = true ->
          was_compared r.1 = false
          ∧ (r.2 = Passed ->
             path_exists w actual_file = true
             ∧ path_exists w actual_bai_file = true)
          ∧ (path_exists w expected_file = true ->
             (r.2 = Passed <->
              path_exists w actual_file = true
              ∧ path_exists w actual_bai_file = true)
             ∧ (r.2 = Passed ∨ exists message, r.2 = Failed message)))
    as Hdedup.
  { intros ->. unfold view_sort_index_runs in Hr.
    apply elem_of_cons in Hr as [->|Hr];
      [rewrite integration_view_sort_index_dedup
      |apply elem_of_cons in Hr as [->|Hr];
       [rewrite regression_view_sort_index_dedup
       |by apply elem_of_nil in Hr]].
    all: destruct (path_exists w expected_file),
           (path_exists w actual_file), (path_exists w actual_bai_file);
      cbn; repeat split; try (intros [? ?]); intros;
      solve [discriminate | done | by left | right; by eexists]. }
  split; [|split; [|split]].
  - intros H. by destruct (Hdedup H) as (? & ? & ?).
  - intros H. by destruct (Hdedup H) as (? & ? & ?).
  - intros H. by destruct (Hdedup H) as (? & ? & ?).
  - intros Hcmp. destruct dedup_umis; [|done].
    destruct (Hdedup eq_refl) as (Hno & _). congruence.
Qed.

End view_sort_index.

Lemma dedup_bam_existence_only_witness :
  let r := run (integration.test_samtools_view_sort_index
                  (fun sample => sample ++ ".bam")
                  (fun file_name => file_name ++ ".bai")
                  true "/x/y" "vignette/simdata_umi_output/" "umi5")
               missing_bai_world in
  was_compared r.1 = false
  ∧ r.2 = Failed
      "Non-existent file: vignette/simdata_umi_output/umi5/umi5.bam.bai".
Proof.
  cbn zeta.
  destruct (dedup_bam_existence_only
              (fun sample => sample ++ ".bam")
              (fun file_name => file_name ++ ".bai")
              missing_bai_world "/x/y" "vignette/simdata_umi_output/" "umi5"
              true _ (list_elem_of_here _ _)) as (Hquiet & _).
  split; [exact (Hquiet eq_refl)|]. vm_compute. reflexivity.
Defined.

(** ** The fixtures of the marks *)

(** The workflow fixture looks at no file; when it lets the checks of its
    module run it has returned. *)
Lemma prep_fixture_passed (nm : file_names) (s : suite) (fx : fixtures)
    (w : world) :
  (run (prep_fixture nm s fx) w).2 = Passed ->
  prep_fixture nm s fx w = ([], inl tt).
Proof.
  destruct s; unfold prep_fixture, integration.prep_riboviz_fixture,
    regression.prep_riboviz_fixture; unfold_check;
    destruct (skip_workflow_fixture fx); cbn; try done.
  - by destruct (run_nextflow nm (config_fixture fx) =? 0)%Z.
  - destruct (nextflow_fixture fx); cbn.
    + by destruct (run_nextflow nm (config_fixture fx) =? 0)%Z.
    + by destruct (prep_riboviz nm (config_fixture fx) =? 0)%Z.
Qed.

(** The workflow fixture passes exactly when the workflow was skipped or
    ended with exit code 0. *)
Lemma prep_fixture_passes (nm : file_names) (s : suite) (fx : fixtures)
    (w : world) :
  (run (prep_fixture nm s fx) w).2 = Passed <->
  skip_workflow_fixture fx = true
  ∨ (match s with
     | regression_suite =>
         if nextflow_fixture fx then run_nextflow nm (config_fixture fx)
         else prep_riboviz nm (config_fixture fx)
     | integration_suite => run_nextflow nm (config_fixture fx)
     end = 0)%Z.
Proof.
  destruct s; unfold prep_fixture, integration.prep_riboviz_fixture,
    regression.prep_riboviz_fixture; unfold_check;
    destruct (skip_workflow_fixture fx); cbn; try (split; [by left|done]).
  - destruct (Z.eqb_spec (run_nextflow nm (config_fixture fx)) 0); cbn;
      (split; [intros; by right || done | by intros [|]]).
  - destruct (nextflow_fixture fx); cbn.
    + destruct (Z.eqb_spec (run_nextflow nm (config_fixture fx)) 0); cbn;
        (split; [intros; by right || done | by intros [|]]).
    + destruct (Z.eqb_spec (prep_riboviz nm (config_fixture fx)) 0); cbn;
        (split; [intros; by right || done | by intros [|]]).
Qed.

(** A check whose workflow fixture passed is skipped by the skip fixture,
    if it carries that mark and [--check-index-tmp] was not given, and is
    its test function otherwise. *)
Lemma body_set_up (nm : file_names) (ck : flagged_check) (fl : flags)
    (fx : fixtures) (w : world) :
  (run (prep_fixture nm (suite_of ck) fx) w).2 = Passed ->
  run (body nm ck fl fx) w
  = if index_tmp ck && negb (check_index_tmp fx)
    then ([], Skipped (skip_index_tmp_reason nm))
    else run (test_function nm ck fl fx) w.
Proof.
  intros Hprep%prep_fixture_passed. unfold body, usefixtures.
  generalize (test_function nm ck fl fx). intros test.
  unfold run, mbind, check_bind. rewrite Hprep.
  unfold skip_index_tmp_fixture, when, pytest_skip, mret, check_ret.
  destruct (index_tmp ck), (check_index_tmp fx); cbn;
    by destruct (test w) as [t [[]|v]].
Qed.

(** Whatever its fixtures do, a check is its test function or ends before
    it has looked at a file, and then it has not passed. *)
Lemma body_cases (nm : file_names) (ck : flagged_check) (fl : flags)
    (fx : fixtures) (w : world) :
  run (body nm ck fl fx) w = run (test_function nm ck fl fx) w
  ∨ exists v, run (body nm ck fl fx) w = ([], v) ∧ v ≠ Passed.
Proof.
  unfold body, usefixtures.
  generalize (test_function nm ck fl fx). intros test.
  assert (prep_fixture nm (suite_of ck) fx w = ([], inl tt)
          ∨ exists message,
              prep_fixture nm (suite_of ck) fx w
              = ([], inr (Failed message))) as [Hprep|[message Hprep]].
  { destruct (suite_of ck);
      unfold prep_fixture, integration.prep_riboviz_fixture,
        regression.prep_riboviz_fixture; unfold_check;
      destruct (skip_workflow_fixture fx); cbn; try (by left).
    - destruct (run_nextflow nm (config_fixture fx) =? 0)%Z;
        [by left|right; by eexists].
    - destruct (nextflow_fixture fx); cbn.
      + destruct (run_nextflow nm (config_fixture fx) =? 0)%Z;
          [by left|right; by eexists].
      + destruct (prep_riboviz nm (config_fixture fx) =? 0)%Z;
          [by left|right; by eexists]. }
  - unfold run, mbind, check_bind. rewrite Hprep.
    unfold skip_index_tmp_fixture, when, pytest_skip, mret, check_ret.
    destruct (index_tmp ck), (check_index_tmp fx); cbn;
      try (left; by destruct (test w) as [t [[]|v]]).
    right. by eexists.
  - right. unfold run, mbind, check_bind. rewrite Hprep. by eexists.
Qed.

(** ** C8: checks of artifacts that a feature flag governs *)

(** A test function that takes a flag starts by reading it. *)
Lemma test_function_skips (nm : file_names) (ck : flagged_check)
    (fl : flags) (fx : fixtures) (w : world) (f : flag) :
  f ∈ reads ck -> flag_value f fl = false ->
  exists reason,
    run (test_function nm ck fl fx) w = ([], Skipped reason) ∧ reason ≠ "".
Proof.
  intros Hreads Hoff.
  destruct ck; cbn in Hreads;
    repeat match goal with
           | H : _ ∈ [] |- _ => by apply elem_of_nil in H
           | H : _ ∈ _ :: _ |- _ => apply elem_of_cons in H as [->|H]
           end;
    cbn in Hoff; cbn [test_function];
    unfold integration.test_hisat2_build_index,
      integration.test_umitools_extract_fq,
      integration.test_samtools_index_dedup_bam,
      integration.test_umitools_dedup_stats_tsv,
      integration.test_umitools_pre_dedup_group_tsv,
      integration.test_umitools_post_dedup_group_tsv,
      integration.test_bedtools_bedgraph,
      integration.test_generate_stats_figs_pdf,
      integration.test_analysis_outputs_html,
      integration.test_read_counts_per_file_tsv,
      regression.test_umitools_extract_fq,
      regression.test_samtools_view_sort_index_pre_dedup_bam,
      regression.test_samtools_index_dedup_bam,
      regression.test_umitools_dedup_stats_tsv,
      regression.test_umitools_pre_dedup_group_tsv,
      regression.test_umitools_post_dedup_group_tsv;
    skipped_by_flag.
Qed.

(** C8 (as amended). Once the workflow fixture has passed, a check of an
    artifact that feature flags govern is skipped with a reason, before it
    looks at any file, when a governing flag that its test function takes is
    false; the reason is the test function's own, or the one of the skip
    fixture when the check is one of index or temporary files and
    [--check-index-tmp] was not given. Every check of the integration suite
    takes all the flags that govern its artifact. In the regression suite
    the checks of [unread_flags] do not take the governing flag named there
    ([build_indices] for the index files, [dedup_umis] for the two UMI group
    files, [make_bedgraph], [output_pdfs], [count_reads]): with that flag
    false and the other flags true, in a run on existing files, such a
    check looks at the files and passes or fails. *)
Theorem flag_false_skips (nm : file_names) (ck : flagged_check) (fl : flags)
    (fx : fixtures) (w : world) (f : flag) :
  (run (prep_fixture nm (suite_of ck) fx) w).2 = Passed ->
  f ∈ governing ck ->
  flag_value f fl = false ->
  (f ∈ reads ck ->
   exists reason,
     run (body nm ck fl fx) w = ([], Skipped reason)
     ∧ (index_tmp ck = true -> check_index_tmp fx = false ->
        reason = skip_index_tmp_reason nm)
     ∧ (index_tmp ck && negb (check_index_tmp fx) = false -> reason ≠ ""))
  ∧ (suite_of ck = integration_suite -> f ∈ reads ck)
  ∧ (f ∉ reads ck ->
     (ck, f) ∈ unread_flags
     ∧ (run (prep_fixture nm (suite_of ck) vignette_fixtures)
          everything_there).2 = Passed
     ∧ flag_value f (only_off f) = false
     ∧ (forall g, g ≠ f -> flag_value g (only_off f) = true)
     ∧ (run (body nm ck (only_off f) vignette_fixtures)
          everything_there).1 ≠ []
     ∧ forall reason,
         (run (body nm ck (only_off f) vignette_fixtures)
            everything_there).2 ≠ Skipped reason).
Proof.
  intros Hprep Hgov Hoff. split; [|split].
  - intros Hreads. rewrite body_set_up by done.
    destruct (index_tmp ck && negb (check_index_tmp fx)) eqn:Hmark.
    + exists (skip_index_tmp_reason nm). by repeat split.
    + destruct (test_function_skips nm ck fl fx w f Hreads Hoff)
        as (reason & Hrun & Hreason).
      exists reason. split; [done|]. split; [|done].
      intros Hidx Hopt. rewrite Hidx, Hopt in Hmark. discriminate.
  - intros Hsuite. by destruct ck.
  - intros Hunread.
    assert (forall g, g ≠ f -> flag_value g (only_off f) = true) as Hothers.
    { intros g Hg. destruct g; cbn; by rewrite bool_decide_eq_false_2. }
    destruct ck; cbn in Hgov;
      repeat match goal with
             | H : _ ∈ [] |- _ => by apply elem_of_nil in H
             | H : _ ∈ _ :: _ |- _ => apply elem_of_cons in H as [->|H]
             end;
      try (exfalso; apply Hunread; cbn; set_solver);
      (split; [in_table|]); (split; [reflexivity|]);
      (split; [reflexivity|]); (split; [exact Hothers|]);
      rewrite body_set_up by reflexivity; cbn [index_tmp andb negb];
      vm_compute; (split; [discriminate|intros reason; discriminate]).
Qed.

(** With [make_bedgraph] false the regression check of the bedgraph files is
    not skipped: it compares and fails. With [dedup_umis] false and
    [group_umis] true, the regression check of the UMI groups before
    deduplication compares too. *)
Lemma flag_false_skips_counterexample :
  Make_bedgraph ∈ governing regression_bedtools_bedgraph
  ∧ flag_value Make_bedgraph all_off = false
  ∧ run (body vignette_names regression_bedtools_bedgraph all_off
           vignette_fixtures) stale_bedgraph_world
    = ([Exists "/x/y/output/WTnone/plus.bedgraph";
        Compared compare_files "/x/y/output/WTnone/plus.bedgraph"
          "vignette/output/WTnone/plus.bedgraph"],
       Failed "Non-existent file: vignette/output/WTnone/plus.bedgraph")
  ∧ Dedup_umis ∈ governing regression_umitools_pre_dedup_group_tsv
  ∧ flag_value Dedup_umis (only_off Dedup_umis) = false
  ∧ run (body vignette_names regression_umitools_pre_dedup_group_tsv
           (only_off Dedup_umis) vignette_fixtures) everything_there
    = ([Compared compare_files "/x/y/tmp/WTnone/pre_dedup_groups.tsv"
          "vignette/tmp/WTnone/pre_dedup_groups.tsv"],
       Failed "files differ").
Proof.
  split; [by left|]. split; [reflexivity|].
  split; [vm_compute; reflexivity|].
  split; [by left|]. split; [reflexivity|]. vm_compute. reflexivity.
Qed.

Lemma flag_false_skips_witness :
  (run (prep_fixture vignette_names
          (suite_of integration_bedtools_bedgraph) vignette_fixtures)
     stale_bedgraph_world).2 = Passed
  ∧ Make_bedgraph ∈ governing integration_bedtools_bedgraph
  ∧ flag_value Make_bedgraph all_off = false
  ∧ exists reason,
      run (body vignette_names integration_bedtools_bedgraph all_off
             vignette_fixtures) stale_bedgraph_world
      = ([], Skipped reason) ∧ reason ≠ "".
Proof.
  assert ((run (prep_fixture vignette_names
                  (suite_of integration_bedtools_bedgraph)
                  vignette_fixtures) stale_bedgraph_world).2 = Passed)
    as Hprep by reflexivity.
  assert (Make_bedgraph ∈ governing integration_bedtools_bedgraph) as Hgov
    by (by left).
  assert (flag_value Make_bedgraph all_off = false) as Hoff by reflexivity.
  split; [exact Hprep|]. split; [exact Hgov|]. split; [exact Hoff|].
  destruct (flag_false_skips vignette_names integration_bedtools_bedgraph
              all_off vignette_fixtures stale_bedgraph_world Make_bedgraph
              Hprep Hgov Hoff) as (Hskip & _).
  destruct (Hskip Hgov) as (reason & Hrun & _ & Hreason).
  exists reason. split; [exact Hrun|]. exact (Hreason eq_refl).
Defined.

Example integration_bedgraph_skipped :
  run (body vignette_names integration_bedtools_bedgraph all_off
         vignette_fixtures) stale_bedgraph_world
  = ([], Skipped "Skipped test as make_bedgraph: ").
Proof. reflexivity. Qed.

(** * Further properties of [upgrade_config] *)

Section upgrade_more.

Open Scope list_scope.
Implicit Types (c : configuration) (k : string).

Lemma index_prefix_keys_current k :
  k ∈ index_prefix_keys -> k ∈ RENAMES.*2.
Proof.
  assert (Forall (fun k => k ∈ RENAMES.*2) index_prefix_keys) as H
    by compute_done.
  rewrite Forall_forall in H. apply H.
Qed.

(** What a returning call leaves under any key, from what the rename and
    default loops made. *)
Lemma upgrade_config_lookup_returned c k :
  (upgrade_config c).2 = None ->
  (upgrade_config c).1 !! k =
  if decide (k ∈ UNUSED) then None
  else if decide (k ∈ index_prefix_keys)
       then match prepared c !! k with
            | Some (VStr path) => Some (VStr (basename path))
            | other => other
            end
       else prepared c !! k.
Proof.
  intros (rrna & orf & Hr & Ho & ->)%upgrade_config_returns.
  unfold removal_pass. rewrite removal_loop_lookup.
  destruct (decide (k ∈ UNUSED)) as [|Hun]; [done|].
  destruct (decide (k ∈ index_prefix_keys)) as [Hk|Hk].
  - unfold index_prefix_keys in Hk. apply elem_of_cons in Hk as [->|Hk].
    + rewrite lookup_insert_ne by done. by rewrite lookup_insert_eq, Hr.
    + apply elem_of_cons in Hk as [->|Hk]; [|by apply elem_of_nil in Hk].
      by rewrite lookup_insert_eq, Ho.
  - apply not_index_prefix_key in Hk as [? ?].
    by rewrite !lookup_insert_ne.
Qed.

(** X1. [upgrade_config] returns its input unchanged exactly on the
    configurations that are up to date: without legacy and obsolete keys,
    with every default present and with both index prefixes bare names. *)
Theorem upgrade_config_fixed_point c :
  upgrade_config c = (c, None) <-> up_to_date c.
Proof.
  split.
  - intros Heq.
    assert ((upgrade_config c).2 = None) as Hret by (by rewrite Heq).
    assert ((upgrade_config c).1 = c) as Hsame by (by rewrite Heq).
    pose proof (fun k => upgrade_config_lookup_returned c k Hret) as Hlook.
    rewrite Hsame in Hlook. split; [split|split].
    + intros k Hk. destruct (RENAMES_apart k Hk) as (_ & Hidx & Hun).
      rewrite Hlook. rewrite !decide_False by done.
      by apply prepared_legacy.
    + intros k Hk. destruct (defaults_table_apart k Hk) as (_ & Hidx & Hun).
      rewrite Hlook. rewrite !decide_False by done.
      by apply prepared_default.
    + intros k Hk. destruct (index_prefix_keys_apart k Hk) as (_ & _ & Hun).
      apply upgrade_config_returns in Hret as (rrna & orf & Hr & Ho & _).
      rewrite Hlook. rewrite decide_False, decide_True by done.
      unfold index_prefix_keys in Hk. apply elem_of_cons in Hk as [->|Hk].
      * rewrite Hr. exists (basename rrna).
        split; [done|apply rfind_sep_basename].
      * apply elem_of_cons in Hk as [->|Hk]; [|by apply elem_of_nil in Hk].
        rewrite Ho. exists (basename orf).
        split; [done|apply rfind_sep_basename].
    + intros k Hk. rewrite Hlook. by rewrite decide_True.
  - intros (Hs & Hidx & Hun).
    destruct (Hidx _ rrna_is_index_prefix_key) as (rrna & Hr & Hrb).
    destruct (Hidx _ orf_is_index_prefix_key) as (orf & Ho & Hob).
    rewrite (upgrade_config_settled c Hs), Hr, Ho. cbn zeta.
    rewrite !basename_no_sep by done.
    rewrite (insert_id c params.RRNA_INDEX_PREFIX) by done.
    rewrite insert_id by done.
    unfold removal_pass. by rewrite removal_loop_fixed.
Qed.

Lemma upgrade_config_fixed_point_witness :
  up_to_date (upgrade_config vignette_config).1
  ∧ upgrade_config (upgrade_config vignette_config).1
    = ((upgrade_config vignette_config).1, None).
Proof.
  assert (upgrade_config (upgrade_config vignette_config).1
          = ((upgrade_config vignette_config).1, None)) as Heq.
  { rewrite (upgrade_config_idemp_settled (prepared vignette_config)
               (prepared_settled _) (upgrade_config vignette_config)
               (upgrade_config_unfold _)).
    apply injective_projections; [reflexivity|].
    vm_compute. reflexivity. }
  split; [|exact Heq].
  exact (proj1 (upgrade_config_fixed_point _) Heq).
Defined.

End upgrade_more.

Section upgrade_keys.

Open Scope list_scope.
Implicit Types (c : configuration) (k : string).

(** Which keys the rename loop leaves present. *)
Lemma rename_loop_is_Some (rs : list (string * string)) c k :
  legacy_apart rs -> NoDup rs.*1 -> k ∉ rs.*1 ->
  is_Some (foldl rename_step c rs !! k)
  <-> is_Some (c !! k) ∨ exists o, (o, k) ∈ rs ∧ is_Some (c !! o).
Proof.
  revert c. induction rs as [|[o n] rs IH]; intros c Hap Hnd Hk.
  { cbn. split; [by left|]. intros [?|(o & Ho & _)]; [done|].
    by apply elem_of_nil in Ho. }
  cbn in Hnd, Hk. apply NoDup_cons in Hnd as [Hno Hnd].
  apply not_elem_of_cons in Hk as [Hko Hk].
  cbn [foldl]. rewrite IH by (eauto using legacy_apart_cons).
  assert (forall o', (o', k) ∈ rs ->
            rename_step c (o, n) !! o' = c !! o') as Hsrc.
  { intros o' Ho'.
    assert (o' ∈ rs.*1) as Hin.
    { apply list_elem_of_fmap. by exists (o', k). }
    rewrite rename_step_lookup. destruct (c !! o); [|done].
    rewrite decide_False.
    - rewrite decide_False; [done|]. by intros ->.
    - intros ->. apply (Hap o'); cbn; [by right|by left]. }
  rewrite rename_step_lookup. split.
  - intros [Hsome|(o' & Ho' & Hsome)].
    + destruct (c !! o) as [v|] eqn:Hco; [|by left].
      destruct (decide (n = k)) as [->|Hn].
      * right. exists o. split; [by left|by rewrite Hco].
      * rewrite decide_False in Hsome by done. by left.
    + right. exists o'. split; [by right|]. by rewrite <- Hsrc.
  - intros [Hsome|(o' & Ho' & Hsome)].
    + destruct (c !! o) as [v|] eqn:Hco; [|by left].
      destruct (decide (n = k)) as [->|Hn]; [by left|].
      left. by rewrite decide_False.
    + apply elem_of_cons in Ho' as [[= -> ->]|Ho'].
      * left. destruct (c !! o) as [v|] eqn:Hco.
        -- by rewrite decide_True.
        -- by destruct Hsome.
      * right. exists o'. split; [done|]. by rewrite Hsrc.
Qed.

Lemma prepared_is_Some c k :
  k ∉ RENAMES.*1 ->
  is_Some (prepared c !! k)
  <-> is_Some (c !! k) ∨ k ∈ defaults_table.*1
      ∨ exists o, (o, k) ∈ RENAMES ∧ is_Some (c !! o).
Proof.
  intros Hk.
  pose proof (rename_loop_is_Some RENAMES c k RENAMES_legacy_apart
                RENAMES_NoDup Hk) as Hren.
  destruct (decide (k ∈ defaults_table.*1)) as [Hd|Hd].
  - split; [intros _; right; by left|intros _; by apply prepared_default].
  - rewrite prepared_lookup_other by done. unfold rename_pass.
    rewrite Hren. clear Hren. generalize RENAMES. intros rs.
    split.
    + intros [?|?]; [by left|right; by right].
    + intros [?|[?|?]]; [by left|done|by right].
Qed.

(** X2. When [upgrade_config] returns, the keys of the mapping are the keys
    of the input that are neither legacy nor obsolete, the current keys of
    the legacy keys that the input had, and the keys of the defaults
    tables. *)
Theorem upgraded_keys c k :
  (upgrade_config c).2 = None ->
  is_Some ((upgrade_config c).1 !! k)
  <-> (k ∉ RENAMES.*1) ∧ (k ∉ UNUSED)
      ∧ (is_Some (c !! k) ∨ k ∈ defaults_table.*1
         ∨ exists o, (o, k) ∈ RENAMES ∧ is_Some (c !! o)).
Proof.
  intros Hret. rewrite (upgrade_config_lookup_returned c k Hret).
  destruct (decide (k ∈ UNUSED)) as [Hun|Hun].
  { split; [by intros [? ?]|by intros (_ & ? & _)]. }
  destruct (decide (k ∈ RENAMES.*1)) as [Hl|Hl].
  { destruct (RENAMES_apart k Hl) as (_ & Hidx & _).
    rewrite decide_False by done. rewrite prepared_legacy by done.
    split; [by intros [? ?]|by intros (? & _)]. }
  rewrite <- (prepared_is_Some c k Hl).
  assert (is_Some (match prepared c !! k with
                   | Some (VStr path) => Some (VStr (basename path))
                   | other => other
                   end) <-> is_Some (prepared c !! k)) as Hmatch.
  { destruct (prepared c !! k) as [[]|]; split; intros [? ?]; by eexists. }
  case_decide; [rewrite Hmatch|]; (split; [by intros ?|by intros (_ & _ & ?)]).
Qed.

Lemma upgraded_keys_witness :
  (upgrade_config vignette_config).2 = None
  ∧ is_Some ((upgrade_config vignette_config).1 !! params.ORF_INDEX_PREFIX)
  ∧ ¬ is_Some ((upgrade_config vignette_config).1 !! "orf_index").
Proof.
  assert ((upgrade_config vignette_config).2 = None) as Hret
    by (vm_compute; reflexivity).
  split; [exact Hret|]. split.
  - apply (upgraded_keys vignette_config _ Hret).
    split; [compute_done|]. split; [compute_done|].
    right. right. exists "orf_index". split; [in_table|].
    vm_compute. by eexists.
  - intros H. apply (upgraded_keys vignette_config _ Hret) in H as (H & _).
    apply H. compute_done.
Defined.

(** X3. With both legacy spellings of the stop-in-feature flag in the input,
    the entry that comes later in [RENAMES] decides: [stop_in_feature] ends
    with the value of [stop_in_cds], and both legacy keys are gone. *)
Theorem both_stop_spellings_last_wins c (v w : value) :
  c !! "StopInCDS" = Some v ->
  c !! "stop_in_cds" = Some w ->
  (upgrade_config c).1 !! params.STOP_IN_FEATURE = Some w
  ∧ (upgrade_config c).1 !! "StopInCDS" = None
  ∧ (upgrade_config c).1 !! "stop_in_cds" = None.
Proof.
  intros Hv Hw.
  assert (rename_pass c !! params.STOP_IN_FEATURE = Some w) as Hren.
  { apply (rename_pass_target c "stop_in_cds"); [in_table|done|].
    intros [=]. }
  rewrite !upgrade_config_lookup_other by compute_done.
  split; [|split].
  - unfold prepared. rewrite default_pass_fold.
    by apply default_loop_present.
  - apply prepared_legacy. compute_done.
  - apply prepared_legacy. compute_done.
Qed.

Lemma both_stop_spellings_last_wins_witness :
  let c := <["StopInCDS" := VBool true]>
           (<["stop_in_cds" := VBool false]> vignette_config) in
  c !! "StopInCDS" = Some (VBool true)
  ∧ c !! "stop_in_cds" = Some (VBool false)
  ∧ (upgrade_config c).1 !! params.STOP_IN_FEATURE = Some (VBool false).
Proof.
  cbn zeta.
  set (c := <["StopInCDS" := VBool true]>
            (<["stop_in_cds" := VBool false]> vignette_config)).
  assert (c !! "StopInCDS" = Some (VBool true)) as Hv
    by (vm_compute; reflexivity).
  assert (c !! "stop_in_cds" = Some (VBool false)) as Hw
    by (vm_compute; reflexivity).
  split; [exact Hv|]. split; [exact Hw|].
  exact (proj1 (both_stop_spellings_last_wins c _ _ Hv Hw)).
Defined.

End upgrade_keys.

Section upgrade_values.

Open Scope list_scope.
Implicit Types (c : configuration) (k : string).

(** X4. When [upgrade_config] raises, the mapping is left half upgraded: the
    legacy keys are renamed and the defaults are in, but the obsolete keys
    that the input had are still there; and when the error is the missing
    [orf_index_prefix], [rrna_index_prefix] has already been cut down to its
    file name. *)
Theorem upgrade_config_raises_half_done c (e : exn) :
  (upgrade_config c).2 = Some e ->
  (forall k, k ∈ UNUSED -> (upgrade_config c).1 !! k = c !! k)
  ∧ (forall k, k ∈ RENAMES.*1 -> (upgrade_config c).1 !! k = None)
  ∧ (forall k, k ∈ defaults_table.*1 ->
               is_Some ((upgrade_config c).1 !! k))
  ∧ (e = KeyError params.ORF_INDEX_PREFIX ->
     exists rrna,
       index_source "rRNA_index" params.RRNA_INDEX_PREFIX c
       = Some (VStr rrna)
       ∧ (upgrade_config c).1 !! params.RRNA_INDEX_PREFIX
         = Some (VStr (basename rrna))).
Proof.
  intros Hraise.
  assert ((upgrade_config c).2 ≠ None) as Hne by (by rewrite Hraise).
  split; [|split; [|split]].
  - intros k Hk. destruct (UNUSED_apart k Hk) as (Hl & Hn & Hd & Hidx).
    rewrite upgrade_config_lookup_raised by done.
    by apply prepared_lookup_untouched.
  - intros k Hk. destruct (RENAMES_apart k Hk) as (_ & Hidx & _).
    rewrite upgrade_config_lookup_raised by done. by apply prepared_legacy.
  - intros k Hk. destruct (defaults_table_apart k Hk) as (_ & Hidx & _).
    rewrite upgrade_config_lookup_raised by done. by apply prepared_default.
  - intros ->.
    assert (("rRNA_index", params.RRNA_INDEX_PREFIX) ∈ RENAMES) as HinR
      by in_table.
    rewrite <- (prepared_index_source c _ _ HinR rrna_is_index_prefix_key).
    revert Hraise. rewrite upgrade_config_unfold.
    generalize (prepared c). intros d.
    destruct (d !! params.RRNA_INDEX_PREFIX) as [[| | |rrna| |]|];
      try (intros [=]; fail).
    destruct (d !! params.ORF_INDEX_PREFIX) as [[]|]; cbn [fst snd];
      try (intros [=]; fail).
    intros _. exists rrna. split; [done|]. apply lookup_insert_eq.
Qed.

Lemma upgrade_config_raises_half_done_witness :
  let c := <["aligner" := VStr "hisat2"]>
           (<["rRNA_index" := VStr "vignette/index/yeast_rRNA"]> ∅) in
  (upgrade_config c).2 = Some (KeyError params.ORF_INDEX_PREFIX)
  ∧ (upgrade_config c).1 !! "aligner" = c !! "aligner"
  ∧ c !! "aligner" = Some (VStr "hisat2").
Proof.
  cbn zeta.
  set (c := <["aligner" := VStr "hisat2"]>
            (<["rRNA_index" := VStr "vignette/index/yeast_rRNA"]> ∅)).
  assert ((upgrade_config c).2 = Some (KeyError params.ORF_INDEX_PREFIX))
    as Hraise by (vm_compute; reflexivity).
  split; [exact Hraise|]. split; [|vm_compute; reflexivity].
  apply (proj1 (upgrade_config_raises_half_done c _ Hraise)). in_table.
Defined.

(** X5. [upgrade_config] never injects the resume parameter: the job
    defaults are used without it, whatever the table of job defaults holds,
    and the call leaves [nextflow_resume] as the input had it. *)
Theorem resume_never_injected c (table : list (string * value)) :
  foldl default_step c
    (filter (fun entry => entry.1 ≠ params.NEXTFLOW_RESUME) table)
    !! params.NEXTFLOW_RESUME = c !! params.NEXTFLOW_RESUME
  ∧ (upgrade_config c).1 !! params.NEXTFLOW_RESUME
    = c !! params.NEXTFLOW_RESUME.
Proof.
  split.
  - apply default_loop_other.
    intros ([key d] & Hkey & Hin%list_elem_of_filter)%list_elem_of_fmap.
    cbn in Hkey. destruct Hin as [Hne _]. by apply Hne.
  - rewrite upgrade_config_lookup_other by compute_done.
    apply prepared_lookup_untouched; compute_done.
Qed.

(** The rename loop moves values about and makes none. *)
Lemma rename_loop_from_input (rs : list (string * string)) c k (v : value) :
  foldl rename_step c rs !! k = Some v -> from_input c v.
Proof.
  revert c. induction rs as [|[o n] rs IH]; intros c Hv.
  { by exists k. }
  cbn [foldl] in Hv. apply IH in Hv as [k' Hk'].
  rewrite rename_step_lookup in Hk'.
  destruct (c !! o) as [vo|] eqn:Ho; [|by exists k'].
  destruct (decide (n = k')); [injection Hk' as <-; by exists o|].
  destruct (decide (o = k')); [done|]. by exists k'.
Qed.

(** The default loops add entries of their table and nothing else. *)
Lemma default_loop_from_table (ds : list (string * value)) c k (v : value) :
  foldl default_step c ds !! k = Some v -> c !! k = Some v ∨ (k, v) ∈ ds.
Proof.
  revert c. induction ds as [|[key d] ds IH]; intros c Hv; [by left|].
  cbn [foldl] in Hv. apply IH in Hv as [Hv|Hv]; [|right; by right].
  rewrite default_step_lookup in Hv.
  destruct (c !! key) eqn:Hkey; [by left|].
  destruct (decide (key = k)) as [->|]; [|by left].
  injection Hv as <-. right. by left.
Qed.

Lemma prepared_loops c :
  prepared c
  = foldl default_step (foldl rename_step c RENAMES) defaults_table.
Proof. unfold prepared. by rewrite default_pass_fold. Qed.

Lemma prepared_from c k (v : value) :
  prepared c !! k = Some v -> from_input c v ∨ (k, v) ∈ defaults_table.
Proof.
  rewrite prepared_loops.
  intros [Hv|Hv]%default_loop_from_table; [left|by right].
  exact (rename_loop_from_input RENAMES c k v Hv).
Qed.

(** X6. [upgrade_config] invents no value. Whatever the mapping holds when
    the call ends, returned or raised, is a value of the input (under the
    same or under a legacy key), the default of its key, or, for an index
    prefix, the file name of a path that the input held. *)
Theorem upgrade_config_values c k (v : value) :
  (upgrade_config c).1 !! k = Some v ->
  from_input c v
  ∨ (k, v) ∈ defaults_table
  ∨ (k ∈ index_prefix_keys
     ∧ exists path, v = VStr (basename path) ∧ from_input c (VStr path)).
Proof.
  assert (forall path, prepared c !! k = Some (VStr path) ->
            k ∈ index_prefix_keys -> from_input c (VStr path)) as Hidx.
  { intros path Hp Hk. destruct (index_prefix_keys_apart k Hk) as (_ & Hd & _).
    apply prepared_from in Hp as [?|Hin]; [done|].
    exfalso. apply Hd. apply list_elem_of_fmap. by exists (k, VStr path). }
  assert (prepared c !! k = Some v ->
          from_input c v ∨ (k, v) ∈ defaults_table
          ∨ (k ∈ index_prefix_keys
             ∧ exists path, v = VStr (basename path)
                            ∧ from_input c (VStr path))) as Hprep.
  { intros [?|?]%prepared_from; [by left|right; by left]. }
  revert Hidx Hprep. rewrite upgrade_config_unfold.
  generalize (prepared c). intros d Hidx Hprep.
  destruct (d !! params.RRNA_INDEX_PREFIX) as [[| | |rrna| |]|] eqn:Hr;
    cbn [fst]; try exact Hprep.
  assert (forall c', (c' !! k = Some v -> d !! k = Some v) ->
            <[params.RRNA_INDEX_PREFIX := VStr (basename rrna)]> c' !! k
            = Some v ->
            from_input c v ∨ (k, v) ∈ defaults_table
            ∨ (k ∈ index_prefix_keys
               ∧ exists path, v = VStr (basename path)
                              ∧ from_input c (VStr path))) as Hrrna.
  { intros c' Hc'. rewrite lookup_insert.
    destruct (decide (params.RRNA_INDEX_PREFIX = k)) as [<-|Hk].
    - intros [= <-]. right. right.
      split; [apply rrna_is_index_prefix_key|]. exists rrna.
      split; [done|]. apply Hidx; [done|apply rrna_is_index_prefix_key].
    - intros Hv. by apply Hprep, Hc'. }
  destruct (d !! params.ORF_INDEX_PREFIX) as [[| | |orf| |]|] eqn:Ho;
    cbn [fst]; try (apply (Hrrna d); done).
  unfold removal_pass. rewrite removal_loop_lookup.
  case_decide; [done|]. rewrite lookup_insert.
  destruct (decide (params.ORF_INDEX_PREFIX = k)) as [<-|Hk].
  - intros [= <-]. right. right.
    split; [apply orf_is_index_prefix_key|]. exists orf.
    split; [done|]. apply Hidx; [done|apply orf_is_index_prefix_key].
  - apply (Hrrna d). done.
Qed.

Lemma upgrade_config_values_witness :
  (upgrade_config vignette_config).1 !! params.ORF_INDEX_PREFIX
  = Some (VStr "YAL_CDS_w_250")
  ∧ (from_input vignette_config (VStr "YAL_CDS_w_250")
     ∨ (params.ORF_INDEX_PREFIX, VStr "YAL_CDS_w_250") ∈ defaults_table
     ∨ (params.ORF_INDEX_PREFIX ∈ index_prefix_keys
        ∧ exists path, VStr "YAL_CDS_w_250" = VStr (basename path)
                       ∧ from_input vignette_config (VStr path))).
Proof.
  assert ((upgrade_config vignette_config).1 !! params.ORF_INDEX_PREFIX
          = Some (VStr "YAL_CDS_w_250")) as Hv by (vm_compute; reflexivity).
  split; [exact Hv|].
  exact (upgrade_config_values vignette_config _ _ Hv).
Defined.

(** X7. When [upgrade_config] returns, each index prefix is the file name of
    the path under its legacy key if the input had that key, and of the path
    under the current key otherwise: a legacy key takes precedence, and a
    current key that still names a directory is cut down as well. *)
Theorem index_prefix_normalized c (legacy_key current_key : string) :
  (legacy_key, current_key) ∈ index_key_pairs ->
  (upgrade_config c).2 = None ->
  exists path,
    index_source legacy_key current_key c = Some (VStr path)
    ∧ (upgrade_config c).1 !! current_key = Some (VStr (basename path))
    ∧ rfind_sep (basename path) = None.
Proof.
  intros Hpair Hret.
  assert ((legacy_key, current_key) ∈ RENAMES ∧ current_key ∈ index_prefix_keys)
    as [Hin Hkey].
  { unfold index_key_pairs in Hpair.
    apply elem_of_cons in Hpair as [[= -> ->]|Hpair].
    - split; [in_table|apply rrna_is_index_prefix_key].
    - apply elem_of_cons in Hpair as [[= -> ->]|Hpair];
        [|by apply elem_of_nil in Hpair].
      split; [in_table|apply orf_is_index_prefix_key]. }
  destruct (index_prefix_keys_apart current_key Hkey) as (_ & _ & Hun).
  rewrite <- (prepared_index_source c _ _ Hin Hkey).
  rewrite (upgrade_config_lookup_returned c current_key Hret).
  rewrite decide_False, decide_True by done.
  apply upgrade_config_returns in Hret as (rrna & orf & Hr & Ho & _).
  unfold index_prefix_keys in Hkey. apply elem_of_cons in Hkey as [->|Hkey].
  - exists rrna. rewrite Hr. auto using rfind_sep_basename.
  - apply elem_of_cons in Hkey as [->|Hkey]; [|by apply elem_of_nil in Hkey].
    exists orf. rewrite Ho. auto using rfind_sep_basename.
Qed.

Lemma index_prefix_normalized_witness :
  let c := <[params.RRNA_INDEX_PREFIX := VStr "old/dir/yeast_rRNA"]>
           vignette_config in
  ("rRNA_index", params.RRNA_INDEX_PREFIX) ∈ index_key_pairs
  ∧ (upgrade_config c).2 = None
  ∧ exists path,
      index_source "rRNA_index" params.RRNA_INDEX_PREFIX c
      = Some (VStr path)
      ∧ (upgrade_config c).1 !! params.RRNA_INDEX_PREFIX
        = Some (VStr (basename path))
      ∧ rfind_sep (basename path) = None.
Proof.
  cbn zeta.
  set (c := <[params.RRNA_INDEX_PREFIX := VStr "old/dir/yeast_rRNA"]>
            vignette_config).
  assert (("rRNA_index", params.RRNA_INDEX_PREFIX) ∈ index_key_pairs)
    as Hpair by (by left).
  assert ((upgrade_config c).2 = None) as Hret by (vm_compute; reflexivity).
  split; [exact Hpair|]. split; [exact Hret|].
  exact (index_prefix_normalized c _ _ Hpair Hret).
Defined.

End upgrade_values.

(** * Further properties of [upgrade_config_file] *)

Section upgrade_file.

Open Scope list_scope.
Variable fs : filesystem.
Variable input_file : string.
Variable output_file : option string.

Lemma upgrade_config_again (c : configuration) :
  upgrade_config (upgrade_config c).1 = upgrade_config c.
Proof.
  apply upgrade_config_idemp_settled with (d := prepared c).
  - apply prepared_settled.
  - apply upgrade_config_unfold.
Qed.

(** The call on an existing file whose configuration upgrades, when the
    output can be put out. *)
Lemma upgrade_config_file_returns (config : configuration) :
  fs_exists fs input_file = true ->
  fs_isfile fs input_file = true ->
  fs_load fs input_file = Some config ->
  (upgrade_config config).2 = None ->
  can_emit fs output_file = true ->
  upgrade_config_file fs input_file output_file
  = ([ReadFile input_file; emit output_file (upgrade_config config).1],
     Returned).
Proof.
  intros He Hf Hl Hret Hout. unfold upgrade_config_file.
  rewrite He, Hf, Hl. cbn [andb]. revert Hret.
  generalize (upgrade_config config). intros [config' e]. cbn.
  intros ->. destruct output_file as [path|]; [|done].
  cbn in Hout. by rewrite Hout.
Qed.

(** The same call when the output file does not open: the upgrade is done
    and lost. *)
Lemma upgrade_config_file_write_fails (config : configuration)
    (path : string) :
  fs_exists fs input_file = true ->
  fs_isfile fs input_file = true ->
  fs_load fs input_file = Some config ->
  (upgrade_config config).2 = None ->
  output_file = Some path ->
  fs_open_w fs path = false ->
  upgrade_config_file fs input_file output_file
  = ([ReadFile input_file], OSError path).
Proof.
  intros He Hf Hl Hret -> Hout. unfold upgrade_config_file.
  rewrite He, Hf, Hl. cbn [andb]. revert Hret.
  generalize (upgrade_config config). intros [config' e]. cbn.
  intros ->. by rewrite Hout.
Qed.

(** X8. [upgrade_config_file] reads the input file and nothing else. It
    returns exactly when the input is an existing regular file that loads,
    [upgrade_config] returns and the output file, if one is given, opens for
    writing; it has then put out the upgraded configuration exactly once, to
    [output_file] if there is one and to the standard output otherwise. When
    the upgrade is done and the output file does not open, the call raises
    the [OSError] of [open]. A call that ends in an error has written and
    printed nothing. *)
Theorem upgrade_config_file_effects :
  let effects := (upgrade_config_file fs input_file output_file).1 in
  let ending := (upgrade_config_file fs input_file output_file).2 in
  (forall path, ReadFile path ∈ effects -> path = input_file)
  ∧ (ending = Returned <->
     exists config,
       fs_exists fs input_file = true ∧ fs_isfile fs input_file = true
       ∧ fs_load fs input_file = Some config
       ∧ (upgrade_config config).2 = None
       ∧ can_emit fs output_file = true
       ∧ effects
         = [ReadFile input_file; emit output_file (upgrade_config config).1])
  ∧ (forall path,
       ending = OSError path <->
       output_file = Some path ∧ fs_open_w fs path = false
       ∧ exists config,
           fs_exists fs input_file = true ∧ fs_isfile fs input_file = true
           ∧ fs_load fs input_file = Some config
           ∧ (upgrade_config config).2 = None)
  ∧ (ending ≠ Returned ->
     forall e, e ∈ effects -> e = ReadFile input_file).
Proof.
  cbn zeta.
  destruct (fs_exists fs input_file) eqn:He.
  2: { unfold upgrade_config_file. rewrite He. cbn.
       split; [by intros ? ?%elem_of_nil|].
       split; [split; [discriminate|by intros (? & ? & _)]|].
       split; [|by intros _ ? ?%elem_of_nil].
       intros path. split; [discriminate|].
       by intros (_ & _ & ? & ? & _). }
  destruct (fs_isfile fs input_file) eqn:Hf.
  2: { unfold upgrade_config_file. rewrite He, Hf. cbn.
       split; [by intros ? ?%elem_of_nil|].
       split; [split; [discriminate|by intros (? & _ & ? & _)]|].
       split; [|by intros _ ? ?%elem_of_nil].
       intros path. split; [discriminate|].
       by intros (_ & _ & ? & _ & ? & _). }
  destruct (fs_load fs input_file) as [config|] eqn:Hl.
  2: { unfold upgrade_config_file. rewrite He, Hf, Hl. cbn.
       split; [by intros ? [= ->]%list_elem_of_singleton|].
       split; [split; [discriminate|by intros (? & _ & _ & ? & _)]|].
       split; [|by intros _ ? ->%list_elem_of_singleton].
       intros path. split; [discriminate|].
       by intros (_ & _ & ? & _ & _ & ? & _). }
  destruct ((upgrade_config config).2) as [e|] eqn:Hret.
  { unfold upgrade_config_file. rewrite He, Hf, Hl. cbn [andb].
    destruct (upgrade_config config) as [config' e'] eqn:Hup.
    cbn in Hret. subst e'. cbn.
    split; [by intros ? [= ->]%list_elem_of_singleton|].
    split; [split; [discriminate|]|].
    { intros (? & _ & _ & [= <-] & H & _). by rewrite Hup in H. }
    split; [|by intros _ ? ->%list_elem_of_singleton].
    intros path. split; [discriminate|].
    intros (_ & _ & ? & _ & _ & [= <-] & H). by rewrite Hup in H. }
  destruct (can_emit fs output_file) eqn:Hout.
  - rewrite (upgrade_config_file_returns config He Hf Hl Hret Hout). cbn.
    split; [|split; [|split]].
    + intros path [[= ->]|Hin]%elem_of_cons; [done|].
      apply list_elem_of_singleton in Hin. by destruct output_file.
    + split; [|done]. intros _. by exists config.
    + intros path. split; [discriminate|]. intros (-> & Hno & _).
      cbn in Hout. congruence.
    + by intros [].
  - assert (exists path, output_file = Some path ∧ fs_open_w fs path = false)
      as (path & Hfile & Hno).
    { revert Hout. destruct output_file as [path|]; [|discriminate].
      intros Hno. by exists path. }
    rewrite (upgrade_config_file_write_fails config path He Hf Hl Hret
               Hfile Hno). cbn.
    split; [by intros ? [= ->]%list_elem_of_singleton|].
    split; [split; [discriminate|by intros (? & _ & _ & _ & _ & ? & _)]|].
    split; [|by intros _ ? ->%list_elem_of_singleton].
    intros path'. split.
    + intros [= <-]. split; [done|]. split; [done|]. by exists config.
    + rewrite Hfile. by intros ([= <-] & _).
Qed.

End upgrade_file.

Lemma upgrade_config_file_effects_witness :
  upgrade_config_file old_files "old.yaml" (Some "new.yaml")
  = ([ReadFile "old.yaml";
      WriteFile "new.yaml" (upgrade_config vignette_config).1], Returned)
  ∧ (upgrade_config_file old_files "old.yaml" (Some "new.yaml")).2
    = Returned
  ∧ (upgrade_config_file old_files "old.yaml" (Some "nodir/new.yaml")).2
    = OSError "nodir/new.yaml".
Proof.
  assert ((upgrade_config vignette_config).2 = None) as Hret
    by (vm_compute; reflexivity).
  assert (upgrade_config_file old_files "old.yaml" (Some "new.yaml")
          = ([ReadFile "old.yaml";
              WriteFile "new.yaml" (upgrade_config vignette_config).1],
             Returned)) as Hrun.
  { apply (upgrade_config_file_returns old_files "old.yaml"
             (Some "new.yaml") vignette_config);
      [reflexivity|reflexivity|reflexivity|exact Hret|reflexivity]. }
  split; [exact Hrun|]. split.
  - apply (proj1 (proj2 (upgrade_config_file_effects old_files "old.yaml"
                           (Some "new.yaml")))).
    exists vignette_config.
    split; [reflexivity|]. split; [reflexivity|]. split; [reflexivity|].
    split; [exact Hret|]. split; [reflexivity|]. by rewrite Hrun.
  - apply (proj1 (proj2 (proj2 (upgrade_config_file_effects old_files
                                  "old.yaml" (Some "nodir/new.yaml"))))).
    split; [reflexivity|]. split; [reflexivity|]. exists vignette_config.
    split; [reflexivity|]. split; [reflexivity|]. split; [reflexivity|].
    exact Hret.
Defined.

(** X9. Upgrading an upgraded file changes nothing. If a call of
    [upgrade_config_file] returned and its output is read back as it was
    written, [upgrade_config] returns that configuration unchanged, and a
    call of [upgrade_config_file] on the output puts out the same
    configuration again when it can put it out; when its own output file
    does not open it raises the [OSError] of [open], as any call does. *)
Theorem upgrade_config_file_twice (fs fs' : filesystem)
    (input_file output_file : string) (again : option string)
    (dumped : configuration) :
  upgrade_config_file fs input_file (Some output_file)
  = ([ReadFile input_file; WriteFile output_file dumped], Returned) ->
  fs_exists fs' output_file = true ->
  fs_isfile fs' output_file = true ->
  fs_load fs' output_file = Some dumped ->
  upgrade_config dumped = (dumped, None)
  ∧ (can_emit fs' again = true ->
     upgrade_config_file fs' output_file again
     = ([ReadFile output_file; emit again dumped], Returned))
  ∧ (forall path, again = Some path -> fs_open_w fs' path = false ->
       upgrade_config_file fs' output_file again
       = ([ReadFile output_file], OSError path)).
Proof.
  intros Hfirst He Hf Hl.
  assert (exists config, (upgrade_config config).2 = None
                         ∧ dumped = (upgrade_config config).1)
    as (config & Hret & ->).
  { revert Hfirst. unfold upgrade_config_file.
    destruct (fs_exists fs input_file && fs_isfile fs input_file);
      [|discriminate].
    destruct (fs_load fs input_file) as [config|]; [|discriminate].
    destruct (upgrade_config config) as [config' [e|]] eqn:Hup;
      [discriminate|].
    destruct (fs_open_w fs output_file); [|discriminate].
    intros [= <-]. exists config. by rewrite Hup. }
  assert ((upgrade_config (upgrade_config config).1).2 = None) as Hret'
    by (by rewrite upgrade_config_again).
  split; [|split].
  - rewrite upgrade_config_again. revert Hret.
    generalize (upgrade_config config). intros [config' e]. cbn.
    by intros ->.
  - intros Hout.
    rewrite (upgrade_config_file_returns fs' output_file again
               (upgrade_config config).1 He Hf Hl Hret' Hout).
    by rewrite upgrade_config_again.
  - intros path Hagain Hout.
    exact (upgrade_config_file_write_fails fs' output_file again
             (upgrade_config config).1 path He Hf Hl Hret' Hagain Hout).
Qed.

Lemma upgrade_config_file_twice_witness :
  upgrade_config_file old_files "old.yaml" (Some "new.yaml")
  = ([ReadFile "old.yaml";
      WriteFile "new.yaml" (upgrade_config vignette_config).1], Returned)
  ∧ fs_load new_files "new.yaml" = Some (upgrade_config vignette_config).1
  ∧ upgrade_config_file new_files "new.yaml" None
    = ([ReadFile "new.yaml";
        PrintConfig (upgrade_config vignette_config).1], Returned)
  ∧ upgrade_config_file new_files "new.yaml" (Some "nodir/again.yaml")
    = ([ReadFile "new.yaml"], OSError "nodir/again.yaml").
Proof.
  assert ((upgrade_config vignette_config).2 = None) as Hret
    by (vm_compute; reflexivity).
  assert (upgrade_config_file old_files "old.yaml" (Some "new.yaml")
          = ([ReadFile "old.yaml";
              WriteFile "new.yaml" (upgrade_config vignette_config).1],
             Returned)) as Hrun.
  { apply (upgrade_config_file_returns old_files "old.yaml"
             (Some "new.yaml") vignette_config);
      [reflexivity|reflexivity|reflexivity|exact Hret|reflexivity]. }
  assert (fs_load new_files "new.yaml"
          = Some (upgrade_config vignette_config).1) as Hload
    by reflexivity.
  split; [exact Hrun|]. split; [exact Hload|].
  destruct (upgrade_config_file_twice old_files new_files "old.yaml"
              "new.yaml" None _ Hrun eq_refl eq_refl Hload)
    as (_ & Hprint & _).
  destruct (upgrade_config_file_twice old_files new_files "old.yaml"
              "new.yaml" (Some "nodir/again.yaml") _ Hrun eq_refl eq_refl
              Hload) as (_ & _ & Hfail).
  split; [exact (Hprint eq_refl)|].
  exact (Hfail "nodir/again.yaml" eq_refl eq_refl).
Defined.

(** * Further properties of the checks *)

(** Takes the answers of the world apart, one path at a time. *)
Ltac by_world w :=
  repeat match goal with
         | |- context [path_exists w ?p] =>
             destruct (path_exists w p) eqn:?; cbn
         end.

(** X10. The checks of the files that deduplication makes different from
    run to run, and of the PDF files, look for files and never at their
    content: in neither suite do they call a comparator, whatever the flags
    and the files, and when such a check passes every file it looked for
    was there. *)
Theorem existence_only_checks (nm : file_names) (ck : flagged_check)
    (fl : flags) (fx : fixtures) (w : world) :
  existence_only ck = true ->
  was_compared (run (body nm ck fl fx) w).1 = false
  ∧ ((run (body nm ck fl fx) w).2 = Passed ->
     all_found w (run (body nm ck fl fx) w).1 = true).
Proof.
  intros Hck.
  destruct (body_cases nm ck fl fx w) as [->|(v & -> & Hv)];
    [|by split].
  destruct ck; try discriminate Hck; cbn [test_function];
    unfold integration.test_samtools_index_dedup_bam,
      integration.test_umitools_dedup_stats_tsv,
      integration.test_umitools_post_dedup_group_tsv,
      integration.test_generate_stats_figs_pdf,
      regression.test_samtools_index_dedup_bam,
      regression.test_umitools_dedup_stats_tsv,
      regression.test_umitools_post_dedup_group_tsv;
    unfold_check;
    repeat match goal with
           | |- context [negb (?f fl)] => destruct (f fl); cbn
           | |- context [negb (nextflow_fixture fx)] =>
               destruct (nextflow_fixture fx); cbn
           end;
    by_world w;
    (split; [reflexivity|]); intros; try discriminate;
    repeat match goal with
           | H : path_exists w _ = _ |- _ => rewrite H; clear H
           end;
    reflexivity.
Qed.

Lemma existence_only_checks_witness :
  existence_only integration_generate_stats_figs_pdf = true
  ∧ run (body vignette_names integration_generate_stats_figs_pdf all_on
           vignette_fixtures) everything_there
    = ([Exists "/x/y/output/WTnone/plus.bedgraph";
        Exists "vignette/output/WTnone/plus.bedgraph"], Passed)
  ∧ was_compared
      (run (body vignette_names integration_generate_stats_figs_pdf all_on
              vignette_fixtures) everything_there).1 = false.
Proof.
  split; [reflexivity|]. split; [reflexivity|].
  exact (proj1 (existence_only_checks vignette_names
                  integration_generate_stats_figs_pdf all_on
                  vignette_fixtures everything_there eq_refl)).
Defined.

(** ** [compare_sam_files] *)

Section scratch_paths.

Implicit Types (p q s side f : string).

Lemma append_inj_l p q r : p ++ q = p ++ r -> q = r.
Proof.
  induction p as [|a p IH]; [done|].
  rewrite !append_cons. intros [= H]. by apply IH.
Qed.

Lemma ends_with_sep_app p q :
  q ≠ "" -> ends_with_sep (p ++ q) = ends_with_sep q.
Proof.
  intros Hq. induction p as [|a p IH]; [done|].
  rewrite append_cons. cbn [ends_with_sep].
  destruct (p ++ q) eqn:Hpq; [|done].
  by apply append_eq_nil in Hpq.
Qed.

Lemma join_step_relative s b :
  String.prefix "/" b = false -> join_step s b = dir_prefix s ++ b.
Proof.
  intros Hb. unfold join_step, dir_prefix. rewrite Hb.
  destruct (String.eqb s "" || ends_with_sep s); [done|].
  by rewrite append_assoc.
Qed.

Lemma join_step_absolute s b : String.prefix "/" b = true -> join_step s b = b.
Proof. intros Hb. unfold join_step. by rewrite Hb. Qed.

Lemma dir_prefix_side s side :
  side ≠ "" -> ends_with_sep side = false ->
  dir_prefix (dir_prefix s ++ side) = dir_prefix s ++ side ++ "/".
Proof.
  intros Hne Hsep. unfold dir_prefix at 1.
  rewrite ends_with_sep_app, Hsep by done.
  destruct (String.eqb_spec (dir_prefix s ++ side) "") as [Hnil|_].
  - by apply append_eq_nil in Hnil.
  - cbn [orb]. by rewrite append_assoc.
Qed.

Lemma copy_dir_eq s side :
  String.prefix "/" side = false -> copy_dir s side = dir_prefix s ++ side.
Proof. intros Hside. unfold copy_dir, path_join. cbn [foldl].
       by apply join_step_relative. Qed.

Lemma copy_file_relative s side f :
  String.prefix "/" side = false -> side ≠ "" ->
  ends_with_sep side = false -> String.prefix "/" f = false ->
  copy_file s side f = dir_prefix s ++ side ++ "/" ++ f.
Proof.
  intros Hside Hne Hsep Hf. unfold copy_file, path_join. cbn [foldl].
  rewrite copy_dir_eq by done. rewrite join_step_relative by done.
  rewrite dir_prefix_side by done. by rewrite !append_assoc.
Qed.

(** The two directories of the copies are never the same path. *)
Lemma copy_dirs_differ s : copy_dir s "expected" ≠ copy_dir s "actual".
Proof.
  rewrite !copy_dir_eq by done. by intros [=]%append_inj_l.
Qed.

(** The two copies are the same path exactly when the file name is an
    absolute path, which [os.path.join] lets replace the directory. *)
Lemma copy_files_coincide s f :
  copy_file s "expected" f = copy_file s "actual" f
  <-> String.prefix "/" f = true.
Proof.
  destruct (String.prefix "/" f) eqn:Hf.
  - split; [done|]. intros _. unfold copy_file, path_join. cbn [foldl].
    by rewrite !join_step_absolute.
  - split; [|done]. rewrite !copy_file_relative by done.
    by intros [=]%append_inj_l.
Qed.

End scratch_paths.

Section compare_sam.

Variable cmp : comparator.
Variable tools : sam_tools.
Variables expected_directory directory scratch_directory sample
  file_name : string.

Let expected_file :=
  path_join expected_directory
    [basename (normpath directory); sample; file_name].
Let actual_file := path_join directory [sample; file_name].
Let expected_copy := copy_file scratch_directory "expected" file_name.
Let actual_copy := copy_file scratch_directory "actual" file_name.

Ltac unfold_scratch :=
  unfold compare_sam_files_with, os_mkdir, pysam_sort, compare_copies,
    mbind, mret, scratch_bind, scratch_ret; cbn beta iota zeta.

(** X11. In a scratch directory without the two directories of the copies
    and with a sort that succeeds, [compare_sam_files] makes both
    directories, sorts the expected and the actual file into them and gives
    the comparator the two copies, never the files themselves; the copies
    are different paths for every file name that is not an absolute path. *)
Theorem compare_sam_files_compares_copies (existing : gset string) :
  copy_dir scratch_directory "expected" ∉ existing ->
  copy_dir scratch_directory "actual" ∉ existing ->
  sort_ok tools expected_file = true ->
  sort_ok tools actual_file = true ->
  compare_sam_files_with cmp tools expected_directory directory
    scratch_directory sample file_name existing
  = ({[actual_copy]} ∪ ({[expected_copy]}
       ∪ ({[copy_dir scratch_directory "actual"]}
            ∪ ({[copy_dir scratch_directory "expected"]} ∪ existing))),
     [Mkdir (copy_dir scratch_directory "expected");
      Mkdir (copy_dir scratch_directory "actual");
      Sorted expected_copy expected_file;
      Sorted actual_copy actual_file;
      ComparedCopies cmp expected_copy actual_copy],
     match copies_differ tools cmp expected_copy actual_copy with
     | None => inl tt
     | Some diagnostic => inr (NotEquivalent diagnostic)
     end)
  ∧ (String.prefix "/" file_name = false -> expected_copy ≠ actual_copy).
Proof.
  intros He Ha Hse Hsa. split.
  - unfold_scratch. fold (copy_dir scratch_directory "expected").
    fold (copy_dir scratch_directory "actual").
    fold (copy_file scratch_directory "expected" file_name).
    fold (copy_file scratch_directory "actual" file_name).
    fold expected_copy. fold actual_copy.
    fold expected_file. fold actual_file.
    rewrite decide_False by done.
    rewrite decide_False.
    2: { pose proof (copy_dirs_differ scratch_directory). set_solver. }
    rewrite Hse, Hsa. cbn.
    by destruct (copies_differ tools cmp expected_copy actual_copy).
  - intros Hf Heq. apply copy_files_coincide in Heq. congruence.
Qed.

(** X12. [compare_sam_files] does not reuse a scratch directory. Where the
    first of the two directories of the copies exists it raises
    [FileExistsError] before it has done anything, and where the second
    exists, right after making the first. So a second call with the scratch
    directory of a call that got past its [os.mkdir]s, whatever files it is
    asked to compare, raises at once: nothing is sorted, nothing compared
    and nothing changed. *)
Theorem compare_sam_files_fails_on_reuse (existing : gset string)
    (cmp' : comparator) (tools' : sam_tools)
    (expected_directory' directory' sample' file_name' : string) :
  let expected_dir := copy_dir scratch_directory "expected" in
  let actual_dir := copy_dir scratch_directory "actual" in
  let first :=
    compare_sam_files_with cmp tools expected_directory directory
      scratch_directory sample file_name existing in
  (expected_dir ∈ existing ->
   first = (existing, [], inr (FileExistsError expected_dir)))
  ∧ (expected_dir ∉ existing -> actual_dir ∈ existing ->
     first = ({[expected_dir]} ∪ existing, [Mkdir expected_dir],
              inr (FileExistsError actual_dir)))
  ∧ ((forall path, first.2 ≠ inr (FileExistsError path)) ->
     compare_sam_files_with cmp' tools' expected_directory' directory'
       scratch_directory sample' file_name' first.1.1
     = (first.1.1, [], inr (FileExistsError expected_dir))).
Proof.
  cbn zeta.
  assert (forall cmp0 tools0 ed d sa f (made : gset string),
            copy_dir scratch_directory "expected" ∈ made ->
            compare_sam_files_with cmp0 tools0 ed d scratch_directory sa f
              made
            = (made, [],
               inr (FileExistsError (copy_dir scratch_directory "expected"))))
    as Hexists.
  { intros cmp0 tools0 ed d sa f made Hin. unfold_scratch.
    fold (copy_dir scratch_directory "expected").
    by rewrite decide_True. }
  split; [by apply Hexists|]. split.
  - intros He Ha. unfold_scratch.
    fold (copy_dir scratch_directory "expected").
    fold (copy_dir scratch_directory "actual").
    rewrite decide_False by done. rewrite decide_True by set_solver.
    reflexivity.
  - intros Hpast. apply Hexists. revert Hpast. unfold_scratch.
    fold (copy_dir scratch_directory "expected").
    fold (copy_dir scratch_directory "actual").
    destruct (decide (copy_dir scratch_directory "expected" ∈ existing))
      as [He|He].
    { intros Hpast.
      by destruct (Hpast (copy_dir scratch_directory "expected")). }
    destruct (decide (copy_dir scratch_directory "actual"
                      ∈ {[copy_dir scratch_directory "expected"]}
                        ∪ existing)) as [Ha|Ha].
    { intros Hpast.
      by destruct (Hpast (copy_dir scratch_directory "actual")). }
    intros _.
    destruct (sort_ok tools _); [|cbn; set_solver].
    destruct (sort_ok tools _); cbn; set_solver.
Qed.

End compare_sam.

Lemma compare_sam_files_compares_copies_witness :
  let first :=
    integration_sam.compare_sam_files good_tools "/x/y" "vignette/tmp/"
      "scratch" "WTnone" "orf_map.sam" ∅ in
  first.1.2
  = [Mkdir "scratch/expected"; Mkdir "scratch/actual";
     Sorted "scratch/expected/orf_map.sam" "/x/y/tmp/WTnone/orf_map.sam";
     Sorted "scratch/actual/orf_map.sam" "vignette/tmp/WTnone/orf_map.sam";
     ComparedCopies equal_sam "scratch/expected/orf_map.sam"
       "scratch/actual/orf_map.sam"]
  ∧ first.2 = inl tt.
Proof.
  cbn zeta. unfold integration_sam.compare_sam_files.
  destruct (compare_sam_files_compares_copies equal_sam good_tools "/x/y"
              "vignette/tmp/" "scratch" "WTnone" "orf_map.sam" ∅)
    as [Hrun _]; [set_solver|set_solver|reflexivity|reflexivity|].
  rewrite Hrun. split; reflexivity.
Defined.

Lemma compare_sam_files_fails_on_reuse_witness :
  let first :=
    integration_sam.compare_sam_files good_tools "/x/y" "vignette/tmp/"
      "scratch" "WTnone" "orf_map.sam" ∅ in
  let second :=
    integration_sam.compare_sam_files good_tools "/x/y" "vignette/tmp/"
      "scratch" "WTnone" "rRNA_map.sam" first.1.1 in
  first.2 = inl tt
  ∧ second = (first.1.1, [], inr (FileExistsError "scratch/expected")).
Proof.
  cbn zeta. unfold integration_sam.compare_sam_files.
  assert ((compare_sam_files_with equal_sam good_tools "/x/y"
             "vignette/tmp/" "scratch" "WTnone" "orf_map.sam" ∅).2
          = inl tt) as Hfirst.
  { vm_compute. reflexivity. }
  split; [exact Hfirst|].
  apply (compare_sam_files_fails_on_reuse equal_sam good_tools "/x/y"
           "vignette/tmp/" "scratch" "WTnone" "orf_map.sam" ∅).
  intros path. by rewrite Hfirst.
Defined.

(** ** The two regression checks of the deduplication BAM files *)

(** X13. In the regression suite the checks of the BAM files before and
    after deduplication are checks of temporary files: once the workflow
    fixture has passed, a run without [--check-index-tmp] skips both through
    the skip fixture. With [--check-index-tmp] and [dedup_umis] true they
    split on how the workflow was run: a Nextflow run skips the check of the
    file before deduplication and runs the one of the deduplicated file,
    and a run of the Python workflow does the opposite, so that exactly one
    of the two is skipped, before it looks at any file. *)
Theorem regression_dedup_bam_checks_alternate (nm : file_names) (fl : flags)
    (fx : fixtures) (w : world) :
  dedup_umis fl = true ->
  (run (prep_fixture nm regression_suite fx) w).2 = Passed ->
  let before :=
    run (body nm regression_samtools_view_sort_index_pre_dedup_bam fl fx) w in
  let after :=
    run (body nm regression_samtools_index_dedup_bam fl fx) w in
  (check_index_tmp fx = false ->
   before = ([], Skipped (skip_index_tmp_reason nm))
   ∧ after = ([], Skipped (skip_index_tmp_reason nm)))
  ∧ (check_index_tmp fx = true ->
     (nextflow_fixture fx = true ->
      before = ([], Skipped "Skipped test not applicable to Nextflow")
      ∧ forall reason, after.2 ≠ Skipped reason)
     ∧ (nextflow_fixture fx = false ->
        after = ([], Skipped "Skipped test applicable to Nextflow only")
        ∧ forall reason, before.2 ≠ Skipped reason)).
Proof.
  intros Hdedup Hprep. cbn zeta. rewrite !body_set_up by exact Hprep.
  cbn [index_tmp andb]. split; intros ->; cbn [negb]; [done|].
  cbn [test_function].
  unfold regression.test_samtools_view_sort_index_pre_dedup_bam,
    regression.test_samtools_index_dedup_bam.
  unfold_check. rewrite Hdedup. cbn.
  split; intros ->; cbn; (split; [reflexivity|]); intros reason.
  - by_world w; discriminate.
  - destruct (differ w compare_files _ _); [discriminate|].
    cbn. by destruct (differ w compare_files _ _).
Qed.

Lemma regression_dedup_bam_checks_alternate_witness :
  dedup_umis all_on = true
  ∧ (run (prep_fixture vignette_names regression_suite default_fixtures)
       everything_there).2 = Passed
  ∧ run (body vignette_names regression_samtools_index_dedup_bam all_on
           vignette_fixtures) everything_there
    = ([], Skipped "Skipped test applicable to Nextflow only")
  ∧ run (body vignette_names regression_samtools_index_dedup_bam all_on
           default_fixtures) everything_there
    = ([], Skipped "Skipped index and temporary files tests")
  ∧ run (body vignette_names
           regression_samtools_view_sort_index_pre_dedup_bam all_on
           default_fixtures) everything_there
    = ([], Skipped "Skipped index and temporary files tests").
Proof.
  assert ((run (prep_fixture vignette_names regression_suite
                  default_fixtures) everything_there).2 = Passed)
    as Hdefault by reflexivity.
  split; [reflexivity|]. split; [exact Hdefault|].
  destruct (regression_dedup_bam_checks_alternate vignette_names all_on
              vignette_fixtures everything_there eq_refl eq_refl)
    as (_ & Hchecked).
  destruct (regression_dedup_bam_checks_alternate vignette_names all_on
              default_fixtures everything_there eq_refl Hdefault)
    as (Hskipped & _).
  split; [exact (proj1 (proj2 (Hchecked eq_refl) eq_refl))|].
  destruct (Hskipped eq_refl) as (Hbefore & Hafter).
  split; [exact Hafter|exact Hbefore].
Defined.
